(** * Verification of the data-loading pipeline of the SA mining dashboard

    Shallow embedding of [load_data] in [src/streamlit_app.py] (lines 17-48):
    the projection of the raw sheet, the extraction of the metric prefix, the
    wide-to-long [melt], the coercion of values, the mineral-name cleaning with
    the aggregate override, the metric-name mapping and the sales-per-employee
    merge.  Python strings are sequences of code points, here [list Z];
    pandas' floating-point column values are Rocq's primitive binary64 floats,
    with NaN as pandas' missing value. *)

From Stdlib Require Import String Ascii ZArith List Bool Lia.
From Stdlib Require Import Floats Uint63 Permutation Sorted.
Import ListNotations.

Open Scope Z_scope.

(** ** Python strings *)

(** A Python [str]: its sequence of code points. *)
Definition ustr := list Z.

(** The code points of an ASCII literal, to write Python literals. *)
Definition u (s : string) : ustr :=
  map (fun a => Z.of_nat (nat_of_ascii a)) (list_ascii_of_string s).

(** [str.isspace] / the regex class [\s] of Python 3 (the complete set of
    Unicode whitespace code points CPython recognises). *)
Definition is_ws (c : Z) : bool :=
  ((9 <=? c) && (c <=? 13)) || ((28 <=? c) && (c <=? 32)) ||
  (c =? 133) || (c =? 160) || (c =? 5760) ||
  ((8192 <=? c) && (c <=? 8202)) || (c =? 8232) || (c =? 8233) ||
  (c =? 8239) || (c =? 8287) || (c =? 12288).

Definition is_upper_ascii (c : Z) : bool := (65 <=? c) && (c <=? 90).
Definition is_lower_ascii (c : Z) : bool := (97 <=? c) && (c <=? 122).
Definition is_ascii (s : ustr) : bool := forallb (fun c => (0 <=? c) && (c <? 128)) s.

(** Unicode case data used by [str.title]: cased-ness ([_PyUnicode_IsCased])
    and the full lower-case and title-case mappings.  The table covers the
    ASCII letters and the two code points U+0130 (LATIN CAPITAL LETTER I WITH
    DOT ABOVE, cased, full lower case U+0069 U+0307) and U+0307 (COMBINING DOT
    ABOVE, not cased, unchanged); every other code point is treated as uncased
    and mapped to itself (the rest of the Unicode Character Database is not
    reproduced). *)
Definition is_cased (c : Z) : bool :=
  is_upper_ascii c || is_lower_ascii c || (c =? 304).

Definition lower_full (c : Z) : ustr :=
  if is_upper_ascii c then [c + 32]
  else if c =? 304 then [105; 775]
  else [c].

Definition title_full (c : Z) : ustr :=
  if is_lower_ascii c then [c - 32] else [c].

(** [str.title] (CPython's [do_title]): a character following a cased one is
    lower-cased, any other is title-cased; [prev] is "previous is cased". *)
Fixpoint title_aux (prev : bool) (s : ustr) : ustr :=
  match s with
  | [] => []
  | c :: t =>
      (if prev then lower_full c else title_full c) ++ title_aux (is_cased c) t
  end.

Definition title (s : ustr) : ustr := title_aux false s.

(** [str.strip()]: removes leading and trailing whitespace. *)
Fixpoint lstrip (s : ustr) : ustr :=
  match s with
  | [] => []
  | c :: t => if is_ws c then lstrip t else s
  end.

Fixpoint rstrip (s : ustr) : ustr :=
  match s with
  | [] => []
  | c :: t =>
      match rstrip t with
      | [] => if is_ws c then [] else [c]
      | r => c :: r
      end
  end.

Definition strip (s : ustr) : ustr := rstrip (lstrip s).

(** [str.endswith]. *)
Definition ends_with (s suffix : ustr) : bool :=
  let n := length s in
  let k := length suffix in
  Nat.leb k n && forallb (fun p => Z.eqb (fst p) (snd p))
                   (combine (skipn (n - k) s) suffix) .

(** Is [p] a prefix of [s]? *)
Fixpoint prefixb (p s : ustr) : bool :=
  match p, s with
  | [], _ => true
  | a :: p', b :: s' => (a =? b) && prefixb p' s'
  | _ :: _, [] => false
  end.

(** [s.replace(old, '')] for a non-empty [old]: every non-overlapping
    occurrence, scanned left to right, is removed.  [fuel] bounds the number
    of steps; [length s] steps suffice, each consumes a character. *)
Fixpoint remove_all_fuel (fuel : nat) (old s : ustr) : ustr :=
  match fuel with
  | O => s
  | S fuel' =>
      match s with
      | [] => []
      | c :: t =>
          if prefixb old s then remove_all_fuel fuel' old (skipn (length old) s)
          else c :: remove_all_fuel fuel' old t
      end
  end.

Definition remove_all (old s : ustr) : ustr := remove_all_fuel (length s) old s.

(** ** The regular expression [\s*\(.*\)] of line 33

    At a start position the engine takes the longest run of whitespace
    (a shorter run leaves a whitespace character where [\(] is needed), then
    [(] and, [.*] being greedy over every character but a newline, the last
    [)] before the next newline.  [match_at s] is the text after the match
    starting at the head of [s], if there is one. *)
Fixpoint skip_ws (s : ustr) : ustr :=
  match s with
  | [] => []
  | c :: t => if is_ws c then skip_ws t else s
  end.

Fixpoint after_last_close (s : ustr) : option ustr :=
  match s with
  | [] => None
  | c :: t =>
      if c =? 10 then None
      else match after_last_close t with
           | Some r => Some r
           | None => if c =? 41 then Some t else None
           end
  end.

Definition match_at (s : ustr) : option ustr :=
  match skip_ws s with
  | c :: t => if c =? 40 then after_last_close t else None
  | [] => None
  end.

(** [re.sub(r'\s*\(.*\)', '', s)]: leftmost matches, replaced by nothing,
    the search resuming after each match. *)
Fixpoint sub_paren_fuel (fuel : nat) (s : ustr) : ustr :=
  match fuel with
  | O => s
  | S fuel' =>
      match s with
      | [] => []
      | c :: t =>
          match match_at s with
          | Some r => sub_paren_fuel fuel' r
          | None => c :: sub_paren_fuel fuel' t
          end
      end
  end.

Definition sub_paren (s : ustr) : ustr := sub_paren_fuel (length s) s.

(** Lines 30-35: [.str.replace('Mining of ','',regex=False)
    .str.replace(r'\s*\(.*\)','',regex=True).str.strip().str.title()]. *)
Definition clean_mineral (s : ustr) : ustr :=
  title (strip (sub_paren (remove_all (u "Mining of ") s))).

(** ** Cells of the sheet *)

(** A cell as [pd.read_excel(..., header=None)] delivers it: missing (NaN),
    a number together with the text [str()] gives for it, or a string. *)
Inductive cell :=
| CEmpty
| CNum (x : float) (shown : ustr)
| CText (s : ustr).

(** [pd.isna] on a cell. *)
Definition cell_isna (c : cell) : bool :=
  match c with
  | CEmpty => true
  | CNum x _ => PrimFloat.is_nan x
  | CText _ => false
  end.

(** [.astype(str)] on a cell. *)
Definition cell_str (c : cell) : ustr :=
  match c with
  | CEmpty => u "nan"
  | CNum _ shown => shown
  | CText s => s
  end.

(** ** Number syntax of [pd.to_numeric]

    The decimal spellings [[+-]digits[.digits]] whose digit string, without
    the point, is below 2^53 and which have at most 18 digits after the point:
    the digit string and the power of ten are then exact binary64 numbers and
    their correctly rounded quotient is the value Python reads.  Other
    spellings that pandas reads (exponents, surrounding spaces, [.5], [inf],
    longer digit strings) are outside this model, which reads them as not
    numeric; a statement about text cells is made only for
    [non_numeric_text] below, where the model and pandas agree. *)
Fixpoint read_digits (s : ustr) (acc : Z) (n : nat) : Z * nat * ustr :=
  match s with
  | c :: t =>
      if (48 <=? c) && (c <=? 57) then read_digits t (acc * 10 + (c - 48)) (S n)
      else (acc, n, s)
  | [] => (acc, n, [])
  end.

Definition parse_unsigned (s : ustr) : option (Z * nat) :=
  match read_digits s 0 0 with
  | (_, O, _) => None
  | (m, _, []) => Some (m, O)
  | (m, _, c :: r) =>
      if c =? 46 then
        match read_digits r m 0 with
        | (_, O, _) => None
        | (m', k, []) => Some (m', k)
        | _ => None
        end
      else None
  end.

Definition float_of_Z (z : Z) : float := PrimFloat.of_uint63 (Uint63.of_Z z).

Definition parse_number (s : ustr) : option float :=
  let '(neg, body) :=
    match s with
    | c :: t => if c =? 45 then (true, t) else if c =? 43 then (false, t) else (false, s)
    | [] => (false, s)
    end in
  match parse_unsigned body with
  | Some (m, k) =>
      if (m <? 2 ^ 53) && Nat.leb k 18 then
        let v := PrimFloat.div (float_of_Z m) (float_of_Z (10 ^ Z.of_nat k)) in
        Some (if neg then PrimFloat.opp v else v)
      else None
  | None => None
  end.

(** [pd.to_numeric(..., errors='coerce')] on one cell (line 27). *)
Definition to_numeric (c : cell) : float :=
  match c with
  | CEmpty => PrimFloat.nan
  | CNum x _ => x
  | CText s => match parse_number s with Some x => x | None => PrimFloat.nan end
  end.

(** Text that no spelling of a number matches: ASCII characters only, no
    decimal digit (every number but [inf] and [nan] needs one) and no letter
    [i] or [I] (no [inf], [infinity]); [pd.to_numeric] reads it as NaN (the
    [nan] spellings included).  "n/a" and the empty text are such texts. *)
Definition non_numeric_text (s : ustr) : bool :=
  forallb (fun c => (0 <=? c) && (c <? 128) && negb ((48 <=? c) && (c <=? 57)) &&
                    negb ((c =? 105) || (c =? 73))) s.

(** ** Projection (line 20)

    [df_raw.iloc[1:, [2,3,10,11,12,13]].dropna(subset=[2])].  The frame is as
    wide as its longest row, shorter rows padded with NaN; selecting column 13
    of a frame narrower than 14 columns raises [IndexError]. *)
Record record := {
  r_code : cell;
  r_mineral : cell;
  r_vals : list cell   (* the cells of columns 10, 11, 12, 13 *)
}.

Definition frame_width (grid : list (list cell)) : nat :=
  fold_right (fun row w => Nat.max (length row) w) O grid.

Definition project_row (row : list cell) : record :=
  {| r_code := nth 2 row CEmpty;
     r_mineral := nth 3 row CEmpty;
     r_vals := [nth 10 row CEmpty; nth 11 row CEmpty;
                nth 12 row CEmpty; nth 13 row CEmpty] |}.

Definition project (grid : list (list cell)) : option (list record) :=
  if Nat.ltb (frame_width grid) 14 then None
  else Some (filter (fun r => negb (cell_isna (r_code r))) (map project_row (tl grid))).

(** ** Metric code (line 22): [.str.extract(r'^([A-Z]+)')[0]] *)
Fixpoint lead_upper (s : ustr) : ustr :=
  match s with
  | c :: t => if is_upper_ascii c then c :: lead_upper t else []
  | [] => []
  end.

Definition extract_metric (s : ustr) : option ustr :=
  match lead_upper s with
  | [] => None
  | p => Some p
  end.

(** ** Metric names (lines 39-41) *)
Definition ustr_eqb (a b : ustr) : bool :=
  if list_eq_dec Z.eq_dec a b then true else false.

Definition metric_map : list (ustr * ustr) :=
  [(u "FOPEN", u "Opening Stock"); (u "FISALES", u "Sales Revenue");
   (u "FINC", u "Total Income"); (u "FEXP", u "Total Expenditure");
   (u "FCLOSE", u "Closing Stock"); (u "FEMPTOT", u "Employment (Persons)")].

Fixpoint lookup (k : ustr) (m : list (ustr * ustr)) : option ustr :=
  match m with
  | [] => None
  | (k', v) :: m' => if ustr_eqb k k' then Some v else lookup k m'
  end.

(** [df_long['metric'].map(metric_map).fillna(df_long['metric'])]: [None] is
    NaN, the metric of a code without a letter prefix. *)
Definition metric_name (metric : option ustr) : option ustr :=
  match metric with
  | None => None
  | Some m => match lookup m metric_map with Some n => Some n | None => Some m end
  end.

(** ** The long table (lines 24-41) *)
Record obs := {
  o_code : cell;
  o_metric : option ustr;
  o_mineral_raw : cell;
  o_year : Z;
  o_value : float;
  o_mineral : ustr;
  o_metric_name : option ustr
}.

(** Lines 30-36: the cleaned name, overridden for codes ending in [29999]. *)
Definition mineral_of (code mineral : cell) : ustr :=
  if ends_with (cell_str code) (u "29999") then u "Total Industry"
  else clean_mineral (cell_str mineral).

Definition obs_of (r : record) (year : Z) (v : cell) : obs :=
  let metric := extract_metric (cell_str (r_code r)) in
  {| o_code := r_code r;
     o_metric := metric;
     o_mineral_raw := r_mineral r;
     o_year := year;
     o_value := to_numeric v;
     o_mineral := mineral_of (r_code r) (r_mineral r);
     o_metric_name := metric_name metric |}.

(** The year columns of [value_vars], with their position among [r_vals]. *)
Definition year_cols : list (Z * nat) := [(2012, 0%nat); (2015, 1%nat); (2019, 2%nat); (2022, 3%nat)].

(** [df.melt(...)]: the rows of the first value column, then of the second... *)
Definition melt (recs : list record) : list obs :=
  flat_map (fun yc => map (fun r => obs_of r (fst yc) (nth (snd yc) (r_vals r) CEmpty)) recs)
           year_cols.

(** The rows [melt] makes of one record, year by year. *)
Definition melt_one (r : record) : list obs :=
  map (fun yc => obs_of r (fst yc) (nth (snd yc) (r_vals r) CEmpty)) year_cols.

(** ** Sales per employee (lines 44-47) *)
Record derived := {
  d_sales : obs;     (* the [_Sales] columns *)
  d_emp : obs;       (* the [_Emp] columns *)
  d_ratio : float    (* [Sales_per_Employee] *)
}.

Definition is_metric (name : string) (o : obs) : bool :=
  match o_metric_name o with
  | Some n => ustr_eqb n (u name)
  | None => false
  end.

(** [pd.merge(sales, employment, on=['Mineral','Year'])] (inner join), rows
    compared as a multiset, then the unguarded division of line 47. *)
Definition merge (sales employment : list obs) : list derived :=
  flat_map (fun s =>
    flat_map (fun e =>
      if ustr_eqb (o_mineral s) (o_mineral e) && (o_year s =? o_year e)
      then [{| d_sales := s; d_emp := e; d_ratio := PrimFloat.div (o_value s) (o_value e) |}]
      else []) employment) sales.

Definition derive (df_long : list obs) : list derived :=
  merge (filter (is_metric "Sales Revenue") df_long)
        (filter (is_metric "Employment (Persons)") df_long).

(** [load_data()]: [None] is the [IndexError] of a too narrow sheet. *)
Definition load_data (grid : list (list cell)) : option (list obs * list derived) :=
  match project grid with
  | None => None
  | Some recs => let df_long := melt recs in Some (df_long, derive df_long)
  end.

(** ** Sample sheets *)

Definition row (code label : cell) (v1 v2 v3 v4 : cell) : list cell :=
  [CEmpty; CEmpty; code; label; CEmpty; CEmpty; CEmpty; CEmpty; CEmpty; CEmpty;
   v1; v2; v3; v4].

Definition header : list cell :=
  [CText (u "A"); CText (u "B"); CText (u "Code"); CText (u "Description");
   CEmpty; CEmpty; CEmpty; CEmpty; CEmpty; CEmpty;
   CText (u "2012"); CText (u "2015"); CText (u "2019"); CText (u "2022")].

Definition num (x : float) (shown : string) : cell := CNum x (u shown).

Definition sheet_spec_example : list (list cell) :=
  [header;
   row (CText (u "FISALES29999")) (CText (u "Mining of All Other Minerals (n.e.c.)"))
       (num 100 "100") (num 110 "110") (num 120 "120") (num 130 "130")].

Definition text (s : string) : cell := CText (u s).

(** A cell that [pd.to_numeric] cannot read. *)
Definition sheet_na : list (list cell) :=
  [header;
   row (text "FISALES24000") (text "Mining of Gold (ore)")
       (text "n/a") (num 110 "110") (num 120 "120") (num 130 "130")].

(** A label with the phrase "all industries" under a code that is not the
    aggregate one. *)
Definition sheet_marker : list (list cell) :=
  [header;
   row (text "FISALES10000") (text "Total, all industries")
       (num 100 "100") (num 110 "110") (num 120 "120") (num 130 "130")].

(** A code without a letter prefix. *)
Definition sheet_bad_code : list (list cell) :=
  [header;
   row (text "12345") (text "Gold")
       (num 100 "100") (num 110 "110") (num 120 "120") (num 130 "130")].

(** A label that cleans to the empty string. *)
Definition sheet_empty_label : list (list cell) :=
  [header;
   row (text "FISALES10000") (text "Mining of (n.e.c.)")
       (num 100 "100") (num 110 "110") (num 120 "120") (num 130 "130")].

(** Sales and a zero head count for one mineral. *)
Definition sheet_zero_emp : list (list cell) :=
  [header;
   row (text "FISALES24000") (text "Mining of Gold")
       (num 100 "100") (num 110 "110") (num 120 "120") (num 130 "130");
   row (text "FEMPTOT24000") (text "Mining of Gold")
       (num 0 "0") (num 0 "0") (num 0 "0") (num 0 "0")].

(** Two sales records whose labels both clean to "Gold". *)
Definition sheet_dup : list (list cell) :=
  [header;
   row (text "FISALES24000") (text "Mining of Gold")
       (num 100 "100") (num 110 "110") (num 120 "120") (num 130 "130");
   row (text "FISALES24100") (text "Gold (ore)")
       (num 5 "5") (num 6 "6") (num 7 "7") (num 8 "8");
   row (text "FEMPTOT24000") (text "Gold")
       (num 10 "10") (num 11 "11") (num 12 "12") (num 13 "13")].

Definition rec_gold_sales : record :=
  {| r_code := text "FISALES24000"; r_mineral := text "Mining of Gold";
     r_vals := [num 100 "100"; CEmpty; CEmpty; num 130 "130"] |}.

Definition rec_gold_emp : record :=
  {| r_code := text "FEMPTOT24000"; r_mineral := text "Gold";
     r_vals := [CEmpty; CEmpty; CEmpty; num 10 "10"] |}.

(** Observations with Gold sales for 2012 and 2022 and Gold employment for
    2022 only. *)
Definition obs_sales_2012_2022_emp_2022 : list obs :=
  [obs_of rec_gold_sales 2012 (num 100 "100");
   obs_of rec_gold_sales 2022 (num 130 "130");
   obs_of rec_gold_emp 2022 (num 10 "10")].

(** Rows of a derived table, or of a list of observations, with a given
    (Mineral, Year) key. *)
Definition key_count (m : ustr) (y : Z) (l : list obs) : nat :=
  length (filter (fun o => ustr_eqb (o_mineral o) m && (o_year o =? y)) l).

Definition derived_key_count (m : ustr) (y : Z) (l : list derived) : nat :=
  length (filter (fun d => ustr_eqb (o_mineral (d_sales d)) m && (o_year (d_sales d) =? y)) l).

(** ** Predicates on cleaned labels *)

(** The single-character case maps [lower_full] and [title_full] reduce to on
    ASCII. *)
Definition lo1 (c : Z) : Z := if is_upper_ascii c then c + 32 else c.
Definition up1 (c : Z) : Z := if is_lower_ascii c then c - 32 else c.

(** The character [str.title] writes for an ASCII character, given whether
    the previous character is cased. *)
Definition tc (p : bool) (x : Z) : Z := if p then lo1 x else up1 x.

Definition ascii_points : list Z := map Z.of_nat (seq 0 128).

(** Title-cased text: a cased character is upper case after an uncased one
    (or at the start, [prev = false]) and lower case after a cased one. *)
Fixpoint titled (prev : bool) (s : ustr) : bool :=
  match s with
  | [] => true
  | c :: t =>
      (negb (is_cased c) || (if prev then is_lower_ascii c else is_upper_ascii c))
      && titled (is_cased c) t
  end.

(** No [(] is followed by a [)] on the same line, i.e. [\s*\(.*\)] has no
    match; [open] says a [(] occurred earlier on the current line. *)
Fixpoint paren_free_aux (open : bool) (s : ustr) : bool :=
  match s with
  | [] => true
  | c :: t =>
      if (c =? 41) && open then false
      else paren_free_aux (if c =? 40 then true else if c =? 10 then false else open) t
  end.

(** No [)] before the next newline. *)
Fixpoint no_close_in_line (s : ustr) : bool :=
  match s with
  | [] => true
  | c :: t => if c =? 10 then true else negb (c =? 41) && no_close_in_line t
  end.

(** [old] occurs nowhere in [s]. *)
Fixpoint no_occurrence (old s : ustr) : bool :=
  match s with
  | [] => true
  | c :: t => negb (prefixb old s) && no_occurrence old t
  end.

(** The label "a", U+0130, "b". *)
Definition label_non_ascii : ustr := [97; 304; 98].

(** ** Sidebar widgets (lines 66-100) *)

(** [Series.unique()]: the distinct values in order of first appearance
    (NaN counted once). *)
Definition unique_by {A} (eqb : A -> A -> bool) (l : list A) : list A :=
  fold_left (fun acc x => if existsb (eqb x) acc then acc else acc ++ [x]) l [].

(** [sorted] of a list of distinct integers. *)
Fixpoint insert_Z (x : Z) (l : list Z) : list Z :=
  match l with
  | [] => [x]
  | y :: t => if y <? x then y :: insert_Z x t else x :: l
  end.

Definition sort_Z (l : list Z) : list Z := fold_right insert_Z [] l.

(** Line 66: [years = sorted(df['Year'].unique())]. *)
Definition years_of (df : list obs) : list Z := sort_Z (unique_by Z.eqb (map o_year df)).

(** Line 67: the slider's bounds and default [(min(years), max(years))];
    [None] is the [ValueError] of [min] on an empty list. *)
Definition year_slider (years : list Z) : option (Z * Z) :=
  match years with
  | [] => None
  | y :: t => Some (fold_left Z.min t y, fold_left Z.max t y)
  end.

(** Python's [<] on strings: lexicographic on code points. *)
Fixpoint str_ltb (a b : ustr) : bool :=
  match a, b with
  | [], [] => false
  | [], _ :: _ => true
  | _ :: _, [] => false
  | x :: a', y :: b' => (x <? y) || ((x =? y) && str_ltb a' b')
  end.

Fixpoint insert_str (x : ustr) (l : list ustr) : list ustr :=
  match l with
  | [] => [x]
  | y :: t => if str_ltb y x then y :: insert_str x t else x :: l
  end.

Definition sort_str (l : list ustr) : list ustr := fold_right insert_str [] l.

Definition opt_ustr_eqb (a b : option ustr) : bool :=
  match a, b with
  | None, None => true
  | Some x, Some y => ustr_eqb x y
  | _, _ => false
  end.

Definition somes (l : list (option ustr)) : list ustr :=
  flat_map (fun o => match o with Some x => [x] | None => [] end) l.

(** Line 72: [metrics = sorted(df['Metric'].unique())].  A null metric is the
    float NaN; [sorted] compares every two neighbours of its result, so NaN
    next to a string raises [TypeError] ([None]); NaN alone sorts to itself. *)
Definition metrics_of (df : list obs) : option (list (option ustr)) :=
  let vals := unique_by opt_ustr_eqb (map o_metric_name df) in
  match vals with
  | [None] => Some [None]
  | _ => if existsb (fun v => match v with None => true | Some _ => false end) vals
         then None
         else Some (map Some (sort_str (somes vals)))
  end.

(** Line 73: the selectbox's initial choice: 'Sales Revenue' when present,
    otherwise the first option ([None]: no options). *)
Definition default_metric (metrics : list (option ustr)) : option (option ustr) :=
  if existsb (opt_ustr_eqb (Some (u "Sales Revenue"))) metrics
  then Some (Some (u "Sales Revenue"))
  else hd_error metrics.

(** Line 82: the initial [st.session_state.selected_minerals]. *)
Definition initial_selection : list ustr :=
  [u "Total Industry"; u "Platinum Group Metal Ore"; u "Coal And Lignite"].

(** [list.remove(m)]: drops the first element equal to [m]; [toggle_mineral]
    only calls it when [m] is in the list. *)
Fixpoint remove_first (m : ustr) (l : list ustr) : list ustr :=
  match l with
  | [] => []
  | x :: t => if ustr_eqb x m then t else x :: remove_first m t
  end.

(** Lines 84-88: [toggle_mineral]. *)
Definition toggle_mineral (m : ustr) (sel : list ustr) : list ustr :=
  if existsb (ustr_eqb m) sel then remove_first m sel else sel ++ [m].

(** The selection after the buttons of [ms] were clicked, one per run. *)
Definition toggles (ms : list ustr) (sel : list ustr) : list ustr :=
  fold_left (fun s m => toggle_mineral m s) ms sel.

(** Line 79: [all_minerals = sorted(df['Mineral'].unique())]. *)
Definition all_minerals_of (df : list obs) : list ustr :=
  sort_str (unique_by ustr_eqb (map o_mineral df)).

(** Lines 105-109: [filtered_df]; [between] is inclusive, and [==] with a null
    on either side is false. *)
Definition filtered_df (y0 y1 : Z) (selected : list ustr) (metric : option ustr)
  (df : list obs) : list obs :=
  filter (fun o => (y0 <=? o_year o) && (o_year o <=? y1) &&
                   existsb (ustr_eqb (o_mineral o)) selected &&
                   match o_metric_name o, metric with
                   | Some n, Some m => ustr_eqb n m
                   | _, _ => false
                   end) df.

(** Lines 168-169: the rows of the expenditure chart. *)
Definition cost_metrics : list ustr :=
  [u "Total Expenditure"; u "Salaries & Wages"; u "Utilities"].

Definition costs_rows (selected : list ustr) (df : list obs) : list obs :=
  filter (fun o => match o_metric_name o with
                   | Some n => existsb (ustr_eqb n) cost_metrics
                   | None => false
                   end && existsb (ustr_eqb (o_mineral o)) selected) df.

(** Two codes, one without a letter prefix. *)
Definition sheet_mixed_codes : list (list cell) :=
  [header;
   row (text "12345") (text "Gold")
       (num 100 "100") (num 110 "110") (num 120 "120") (num 130 "130");
   row (text "FISALES24000") (text "Mining of Gold")
       (num 100 "100") (num 110 "110") (num 120 "120") (num 130 "130")].

(** A short row and a row without code after the example. *)
Definition sheet_short_rows : list (list cell) :=
  sheet_spec_example ++ [[CEmpty; text "note"]; row CEmpty (text "Gold") CEmpty CEmpty CEmpty CEmpty].

(** An expenditure row and a sales row of the whole industry. *)
Definition sheet_costs : list (list cell) :=
  [header;
   row (text "FEXP29999") (text "Total mining")
       (num 80 "80") (num 90 "90") (num 95 "95") (num 99 "99");
   row (text "FISALES29999") (text "Total mining")
       (num 100 "100") (num 110 "110") (num 120 "120") (num 130 "130")].

(** * Properties *)

Example ex_spec :
  option_map (fun p => map (fun o => (o_mineral o, o_year o, o_metric_name o)) (fst p))
    (load_data sheet_spec_example) =
  Some [(u "Total Industry", 2012, Some (u "Sales Revenue"));
        (u "Total Industry", 2015, Some (u "Sales Revenue"));
        (u "Total Industry", 2019, Some (u "Sales Revenue"));
        (u "Total Industry", 2022, Some (u "Sales Revenue"))].
Proof. vm_compute. reflexivity. Qed.

Example ex_parse : parse_number (u "-12.5") = Some (-12.5)%float.
Proof. vm_compute. reflexivity. Qed.

Example ex_parse_na : parse_number (u "n/a") = None.
Proof. vm_compute. reflexivity. Qed.

(** ** The long table *)

Lemma load_data_inv grid obs der :
  load_data grid = Some (obs, der) ->
  exists recs, project grid = Some recs /\ obs = melt recs /\ der = derive obs.
Proof.
  unfold load_data. destruct (project grid) as [recs|]; [|discriminate].
  intros H. injection H as <- <-. eauto.
Qed.

Lemma load_data_of_project grid recs :
  project grid = Some recs -> load_data grid = Some (melt recs, derive (melt recs)).
Proof. unfold load_data. intros ->. reflexivity. Qed.

Lemma in_melt o recs :
  In o (melt recs) <->
  exists yc r, In yc year_cols /\ In r recs /\
               o = obs_of r (fst yc) (nth (snd yc) (r_vals r) CEmpty).
Proof.
  unfold melt. rewrite in_flat_map. split.
  - intros [yc [Hyc Hin]]. apply in_map_iff in Hin as [r [Ho Hr]].
    exists yc, r. auto.
  - intros [yc [r [Hyc [Hr Ho]]]]. exists yc. split; [assumption|].
    apply in_map_iff. eauto.
Qed.

Lemma flat_map_cons_perm {A B} (g : A -> B) (h : A -> list B) (ys : list A) :
  Permutation (flat_map (fun y => g y :: h y) ys) (map g ys ++ flat_map h ys).
Proof.
  induction ys as [|y ys IH]; simpl; [constructor|].
  apply perm_skip.
  transitivity (h y ++ map g ys ++ flat_map h ys).
  - apply Permutation_app_head. exact IH.
  - apply Permutation_app_swap_app.
Qed.

Lemma flat_map_nil {A B} (ys : list A) : flat_map (fun _ => @nil B) ys = [].
Proof. induction ys; simpl; auto. Qed.

(** Reading year-major or record-major gives the same rows. *)
Lemma flat_map_transpose {A B C} (f : A -> B -> C) (ys : list A) (rs : list B) :
  Permutation (flat_map (fun y => map (f y) rs) ys)
              (flat_map (fun r => map (fun y => f y r) ys) rs).
Proof.
  induction rs as [|r rs IH]; simpl.
  - rewrite flat_map_nil. constructor.
  - etransitivity; [apply (flat_map_cons_perm (fun y => f y r) (fun y => map (f y) rs))|].
    apply Permutation_app_head. exact IH.
Qed.

Lemma melt_perm recs : Permutation (melt recs) (flat_map melt_one recs).
Proof.
  unfold melt, melt_one.
  exact (flat_map_transpose (fun yc r => obs_of r (fst yc) (nth (snd yc) (r_vals r) CEmpty))
           year_cols recs).
Qed.

Lemma melt_length recs : length (melt recs) = (4 * length recs)%nat.
Proof.
  rewrite (Permutation_length (melt_perm recs)).
  induction recs as [|r recs IH]; simpl; [reflexivity|].
  rewrite IH. lia.
Qed.

Lemma melt_one_incl grid recs obs der r :
  project grid = Some recs -> load_data grid = Some (obs, der) -> In r recs ->
  incl (melt_one r) obs.
Proof.
  intros Hp H Hr o Ho.
  rewrite (load_data_of_project _ _ Hp) in H. injection H as <- _.
  apply in_melt. unfold melt_one in Ho. apply in_map_iff in Ho as [yc [<- Hyc]].
  exists yc, r. auto.
Qed.

Lemma obs_mineral grid obs der o :
  load_data grid = Some (obs, der) -> In o obs ->
  o_mineral o = mineral_of (o_code o) (o_mineral_raw o).
Proof.
  intros H Ho. apply load_data_inv in H as [recs [_ [-> _]]].
  apply in_melt in Ho as [yc [r [_ [_ ->]]]]. reflexivity.
Qed.

(** C1: every record kept by the projector gives exactly one row per year
    2012, 2015, 2019, 2022 (the long table is, up to order, the four rows of
    each record), and the four rows carry the record's code and label. *)
Theorem reshape_one_row_per_year grid recs (Hp : project grid = Some recs) :
  exists obs der, load_data grid = Some (obs, der) /\
  Permutation obs (flat_map melt_one recs) /\
  length obs = (4 * length recs)%nat /\
  forall r, In r recs ->
    map o_year (melt_one r) = [2012; 2015; 2019; 2022] /\
    Forall (fun o => o_code o = r_code r /\ o_mineral_raw o = r_mineral r /\
                     o_mineral o = mineral_of (r_code r) (r_mineral r))
           (melt_one r).
Proof.
  exists (melt recs), (derive (melt recs)).
  split; [apply load_data_of_project; exact Hp|].
  split; [apply melt_perm|]. split; [apply melt_length|].
  intros r _. split; [reflexivity|].
  unfold melt_one; simpl. repeat constructor.
Qed.

Lemma reshape_one_row_per_year_witness :
  project sheet_spec_example =
    Some [project_row (nth 1 sheet_spec_example [])] /\
  exists obs der, load_data sheet_spec_example = Some (obs, der) /\
  Permutation obs (flat_map melt_one [project_row (nth 1 sheet_spec_example [])]) /\
  length obs = (4 * 1)%nat /\
  forall r, In r [project_row (nth 1 sheet_spec_example [])] ->
    map o_year (melt_one r) = [2012; 2015; 2019; 2022] /\
    Forall (fun o => o_code o = r_code r /\ o_mineral_raw o = r_mineral r /\
                     o_mineral o = mineral_of (r_code r) (r_mineral r))
           (melt_one r).
Proof.
  split; [vm_compute; reflexivity|].
  apply reshape_one_row_per_year. vm_compute. reflexivity.
Defined.

(** C2 (as stated, refuted): the cell "n/a" coerces to NaN, and its row
    stays in the published long table. *)
Lemma uncoercible_row_not_excluded :
  match load_data sheet_na with
  | Some (o :: _, _) => o_year o = 2012 /\ PrimFloat.is_nan (o_value o) = true
  | _ => False
  end.
Proof. vm_compute. split; reflexivity. Qed.

(** No number can be read from a [non_numeric_text]. *)
Lemma parse_number_non_numeric s : non_numeric_text s = true -> parse_number s = None.
Proof.
  assert (Hb : forall b, non_numeric_text b = true -> parse_unsigned b = None).
  { intros [|d r] Hd; [reflexivity|].
    unfold non_numeric_text in Hd. simpl in Hd.
    apply andb_true_iff in Hd as [Hd _]. apply andb_true_iff in Hd as [Hd _].
    apply andb_true_iff in Hd as [_ Hd]. apply negb_true_iff in Hd.
    unfold parse_unsigned. simpl. rewrite Hd. reflexivity. }
  intros Hs. unfold parse_number.
  destruct s as [|c t]; [reflexivity|].
  assert (Ht : non_numeric_text t = true).
  { unfold non_numeric_text in *. simpl in Hs. apply andb_true_iff in Hs as [_ Hs]. exact Hs. }
  destruct (c =? 45); [rewrite (Hb t Ht); reflexivity|].
  destruct (c =? 43); [rewrite (Hb t Ht); reflexivity|].
  rewrite (Hb _ Hs). reflexivity.
Qed.

(** C2 (amended): a text cell that [pd.to_numeric] cannot read (a
    [non_numeric_text]: ASCII, no digit, no [i]/[I], as "n/a") gives the
    value NaN (pandas' null) for its row, and no row is removed: the long
    table keeps that row and has four rows per kept record. *)
Theorem uncoercible_value_is_nan_and_kept grid recs obs der
  (Hp : project grid = Some recs) (H : load_data grid = Some (obs, der))
  r yc s (Hr : In r recs) (Hyc : In yc year_cols)
  (Hc : nth (snd yc) (r_vals r) CEmpty = CText s) (Hs : non_numeric_text s = true) :
  In (obs_of r (fst yc) (CText s)) obs /\
  PrimFloat.is_nan (o_value (obs_of r (fst yc) (CText s))) = true /\
  length obs = (4 * length recs)%nat.
Proof.
  rewrite (load_data_of_project _ _ Hp) in H. injection H as <- _.
  split; [|split].
  - apply in_melt. exists yc, r. rewrite Hc. auto.
  - simpl. rewrite (parse_number_non_numeric s Hs). reflexivity.
  - apply melt_length.
Qed.

Lemma uncoercible_value_is_nan_and_kept_witness :
  project sheet_na = Some [project_row (nth 1 sheet_na [])] /\
  In (obs_of (project_row (nth 1 sheet_na [])) 2012 (text "n/a"))
     (melt [project_row (nth 1 sheet_na [])]) /\
  PrimFloat.is_nan (o_value (obs_of (project_row (nth 1 sheet_na [])) 2012 (text "n/a"))) = true /\
  length (melt [project_row (nth 1 sheet_na [])]) = (4 * 1)%nat.
Proof.
  assert (Hp : project sheet_na = Some [project_row (nth 1 sheet_na [])])
    by (vm_compute; reflexivity).
  split; [exact Hp|].
  exact (uncoercible_value_is_nan_and_kept sheet_na _ _ _ Hp
           (load_data_of_project _ _ Hp) _ (2012, 0%nat) (u "n/a")
           (or_introl eq_refl) (or_introl eq_refl) eq_refl eq_refl).
Defined.

(** C3: every row made from a record whose code ends in "29999" has the
    mineral "Total Industry", whatever its label. *)
Theorem aggregate_code_gives_total_industry grid obs der
  (H : load_data grid = Some (obs, der)) o (Ho : In o obs)
  (Hcode : ends_with (cell_str (o_code o)) (u "29999") = true) :
  o_mineral o = u "Total Industry".
Proof.
  rewrite (obs_mineral _ _ _ _ H Ho). unfold mineral_of. rewrite Hcode. reflexivity.
Qed.

Lemma aggregate_code_gives_total_industry_witness :
  exists o, In o (melt [project_row (nth 1 sheet_spec_example [])]) /\
  ends_with (cell_str (o_code o)) (u "29999") = true /\
  o_mineral o = u "Total Industry".
Proof.
  assert (Hp : project sheet_spec_example = Some [project_row (nth 1 sheet_spec_example [])])
    by (vm_compute; reflexivity).
  pose proof (load_data_of_project _ _ Hp) as H.
  exists (obs_of (project_row (nth 1 sheet_spec_example [])) 2012 (num 100 "100")).
  assert (Ho : In (obs_of (project_row (nth 1 sheet_spec_example [])) 2012 (num 100 "100"))
                  (melt [project_row (nth 1 sheet_spec_example [])]))
    by (vm_compute; left; reflexivity).
  split; [exact Ho|]. split; [vm_compute; reflexivity|].
  exact (aggregate_code_gives_total_industry _ _ _ H _ Ho (eq_refl true)).
Defined.

(** C4 (as stated, refuted): a label containing "all industries" under a
    code that does not end in "29999" keeps its cleaned text. *)
Lemma label_marker_does_not_override :
  match load_data sheet_marker with
  | Some (o :: _, _) =>
      o_mineral o = u "Total, All Industries" /\ o_mineral o <> u "Total Industry"
  | _ => False
  end.
Proof. vm_compute. split; [reflexivity|discriminate]. Qed.

(** C4 (amended): the mineral of a row is "Total Industry" exactly when the
    code ends in "29999"; otherwise it is the cleaned label, whatever text
    the label contains. *)
Theorem mineral_override_by_code_only grid obs der
  (H : load_data grid = Some (obs, der)) o (Ho : In o obs) :
  o_mineral o =
    if ends_with (cell_str (o_code o)) (u "29999") then u "Total Industry"
    else clean_mineral (cell_str (o_mineral_raw o)).
Proof. exact (obs_mineral _ _ _ _ H Ho). Qed.

Lemma mineral_override_by_code_only_witness :
  exists o, In o (melt [project_row (nth 1 sheet_marker [])]) /\
  o_mineral o = clean_mineral (u "Total, all industries").
Proof.
  assert (Hp : project sheet_marker = Some [project_row (nth 1 sheet_marker [])])
    by (vm_compute; reflexivity).
  pose proof (load_data_of_project _ _ Hp) as H.
  exists (obs_of (project_row (nth 1 sheet_marker [])) 2012 (num 100 "100")).
  assert (Ho : In (obs_of (project_row (nth 1 sheet_marker [])) 2012 (num 100 "100"))
                  (melt [project_row (nth 1 sheet_marker [])]))
    by (vm_compute; left; reflexivity).
  split; [exact Ho|].
  rewrite (mineral_override_by_code_only _ _ _ H _ Ho). vm_compute. reflexivity.
Defined.

(** C7: the metric namer never fails: a metric code in [metric_map] gets its
    display name, any other code is passed through unchanged. *)
Theorem metric_namer_total (m : ustr) :
  exists n, metric_name (Some m) = Some n /\
  (forall v, lookup m metric_map = Some v -> n = v) /\
  (lookup m metric_map = None -> n = m).
Proof.
  unfold metric_name. destruct (lookup m metric_map) as [v|] eqn:E.
  - exists v. split; [reflexivity|]. split; [intros v' [= ->]; reflexivity|discriminate].
  - exists m. split; [reflexivity|]. split; [discriminate|reflexivity].
Qed.

Example metric_namer_examples :
  metric_name (Some (u "FISALES")) = Some (u "Sales Revenue") /\
  metric_name (Some (u "FEMPTOT")) = Some (u "Employment (Persons)") /\
  metric_name (Some (u "FSAL")) = Some (u "FSAL").
Proof. vm_compute. repeat split. Qed.

(** The metric code is the longest leading run of upper-case ASCII letters. *)
Lemma lead_upper_spec s :
  exists rest, s = lead_upper s ++ rest /\
  forallb is_upper_ascii (lead_upper s) = true /\
  match rest with c :: _ => is_upper_ascii c = false | [] => True end.
Proof.
  induction s as [|c s IH]; simpl.
  - exists []. auto.
  - destruct (is_upper_ascii c) eqn:E; simpl.
    + destruct IH as [rest [Hs [Hu Hr]]]. exists rest.
      rewrite E. simpl. split; [congruence|auto].
    + exists (c :: s). auto.
Qed.

(** C8 (as stated, refuted): a code without a letter prefix ("12345") gets
    no metric code, and its rows stay in the long table. *)
Lemma unrecognized_code_not_excluded :
  match load_data sheet_bad_code with
  | Some (obs, _) => length obs = 4%nat /\ Forall (fun o => o_metric o = None) obs
  | None => False
  end.
Proof. vm_compute. split; [reflexivity|repeat constructor]. Qed.

(** C8 (amended): the metric code of a row is the longest leading run of
    upper-case ASCII letters of its code; a record whose code has none gets
    a null metric and a null metric name, and its four rows are kept. *)
Theorem metric_code_prefix_no_prefix_kept grid recs obs der
  (Hp : project grid = Some recs) (H : load_data grid = Some (obs, der)) :
  (forall o, In o obs ->
     o_metric o = extract_metric (cell_str (o_code o)) /\
     exists rest, cell_str (o_code o) = lead_upper (cell_str (o_code o)) ++ rest /\
       forallb is_upper_ascii (lead_upper (cell_str (o_code o))) = true /\
       match rest with c :: _ => is_upper_ascii c = false | [] => True end) /\
  (forall r, In r recs -> lead_upper (cell_str (r_code r)) = [] ->
     incl (melt_one r) obs /\ length (melt_one r) = 4%nat /\
     Forall (fun o => o_metric o = None /\ o_metric_name o = None) (melt_one r)).
Proof.
  split.
  - intros o Ho. split; [|apply lead_upper_spec].
    apply load_data_inv in H as [recs' [_ [-> _]]].
    apply in_melt in Ho as [yc [r [_ [_ ->]]]]. reflexivity.
  - intros r Hr Hnone. split; [exact (melt_one_incl _ _ _ _ _ Hp H Hr)|].
    split; [reflexivity|].
    unfold melt_one, obs_of, extract_metric; simpl. rewrite Hnone. repeat constructor.
Qed.

Lemma metric_code_prefix_no_prefix_kept_witness :
  incl (melt_one (project_row (nth 1 sheet_bad_code [])))
       (melt [project_row (nth 1 sheet_bad_code [])]).
Proof.
  assert (Hp : project sheet_bad_code = Some [project_row (nth 1 sheet_bad_code [])])
    by (vm_compute; reflexivity).
  apply (proj2 (metric_code_prefix_no_prefix_kept _ _ _ _ Hp (load_data_of_project _ _ Hp))).
  - left. reflexivity.
  - vm_compute. reflexivity.
Defined.

(** C10 (as stated, refuted): the label "Mining of (n.e.c.)" cleans to the
    empty string, and the four rows enter the long table with that name. *)
Lemma empty_label_not_rejected :
  match load_data sheet_empty_label with
  | Some (obs, _) => length obs = 4%nat /\ Forall (fun o => o_mineral o = []) obs
  | None => False
  end.
Proof. vm_compute. split; [reflexivity|repeat constructor]. Qed.

(** C10 (amended): there is no empty-label failure: a record whose label
    cleans to the empty string, under a code not ending in "29999", is kept
    and its four rows carry the empty mineral name. *)
Theorem empty_label_rows_kept grid recs obs der
  (Hp : project grid = Some recs) (H : load_data grid = Some (obs, der))
  r (Hr : In r recs)
  (Hempty : clean_mineral (cell_str (r_mineral r)) = [])
  (Hcode : ends_with (cell_str (r_code r)) (u "29999") = false) :
  incl (melt_one r) obs /\ length (melt_one r) = 4%nat /\
  Forall (fun o => o_mineral o = []) (melt_one r).
Proof.
  split; [exact (melt_one_incl _ _ _ _ _ Hp H Hr)|]. split; [reflexivity|].
  unfold melt_one, obs_of, mineral_of; simpl. rewrite Hcode, Hempty. repeat constructor.
Qed.

Lemma empty_label_rows_kept_witness :
  incl (melt_one (project_row (nth 1 sheet_empty_label [])))
       (melt [project_row (nth 1 sheet_empty_label [])]).
Proof.
  assert (Hp : project sheet_empty_label = Some [project_row (nth 1 sheet_empty_label [])])
    by (vm_compute; reflexivity).
  apply (empty_label_rows_kept _ _ _ _ Hp (load_data_of_project _ _ Hp)).
  - left. reflexivity.
  - vm_compute. reflexivity.
  - vm_compute. reflexivity.
Defined.

(** ** The sales-per-employee table *)

Lemma ustr_eqb_eq a b : ustr_eqb a b = true <-> a = b.
Proof. unfold ustr_eqb. destruct (list_eq_dec Z.eq_dec a b); split; congruence. Qed.

Lemma key_count_cons m y o l :
  key_count m y (o :: l) =
  Nat.add (if ustr_eqb (o_mineral o) m && Z.eqb (o_year o) y then 1%nat else 0%nat)
          (key_count m y l).
Proof. unfold key_count. simpl. destruct (_ && _); reflexivity. Qed.

(** The rows the merge makes of one sales row: one per employment row with
    the same key. *)
Lemma merge_one_count m y s employment :
  derived_key_count m y
    (flat_map (fun e =>
       if ustr_eqb (o_mineral s) (o_mineral e) && (o_year s =? o_year e)
       then [{| d_sales := s; d_emp := e; d_ratio := PrimFloat.div (o_value s) (o_value e) |}]
       else []) employment) =
  if ustr_eqb (o_mineral s) m && (o_year s =? y) then key_count m y employment else 0%nat.
Proof.
  induction employment as [|e es IH]; simpl.
  - destruct (_ && _); reflexivity.
  - unfold derived_key_count in *. rewrite filter_app, length_app, IH, key_count_cons.
    destruct (ustr_eqb (o_mineral s) (o_mineral e) && (o_year s =? o_year e)) eqn:Hse;
      simpl.
    + apply andb_true_iff in Hse as [Hm Hy].
      apply ustr_eqb_eq in Hm. apply Z.eqb_eq in Hy. rewrite <- Hm, <- Hy.
      destruct (ustr_eqb (o_mineral s) m && (o_year s =? y)); reflexivity.
    + destruct (ustr_eqb (o_mineral s) m && (o_year s =? y)) eqn:Hs; [|reflexivity].
      destruct (ustr_eqb (o_mineral e) m && (o_year e =? y)) eqn:He; [|reflexivity].
      exfalso.
      apply andb_true_iff in Hs as [Hsm Hsy]. apply andb_true_iff in He as [Hem Hey].
      apply ustr_eqb_eq in Hsm, Hem. apply Z.eqb_eq in Hsy, Hey.
      assert (ustr_eqb (o_mineral s) (o_mineral e) = true) as Hm
        by (apply ustr_eqb_eq; congruence).
      rewrite Hm, Hsy, Hey, Z.eqb_refl in Hse. discriminate.
Qed.

Lemma merge_key_count m y sales employment :
  derived_key_count m y (merge sales employment) =
  (key_count m y sales * key_count m y employment)%nat.
Proof.
  induction sales as [|s ss IH]; [reflexivity|].
  unfold merge in *. simpl flat_map.
  unfold derived_key_count in *. rewrite filter_app, length_app.
  fold (derived_key_count m y
          (flat_map (fun e =>
             if ustr_eqb (o_mineral s) (o_mineral e) && (o_year s =? o_year e)
             then [{| d_sales := s; d_emp := e;
                      d_ratio := PrimFloat.div (o_value s) (o_value e) |}]
             else []) employment)).
  rewrite merge_one_count, IH, key_count_cons.
  destruct (_ && _); lia.
Qed.

(** C5 (as stated, refuted): two sales records whose labels both clean to
    "Gold" give two derived rows for the key (Gold, 2012). *)
Lemma duplicate_key_two_derived_rows :
  match load_data sheet_dup with
  | Some (_, der) => derived_key_count (u "Gold") 2012 der = 2%nat
  | None => False
  end.
Proof. vm_compute. reflexivity. Qed.

(** C5 (amended): the merge is an inner join whose number of rows for a
    (Mineral, Year) key is the number of sales rows with that key times the
    number of employment rows with it: none when the key is missing from
    either slice, exactly one when each slice has one row for it.  With sales
    rows for 2012 and 2022 and an employment row only for 2022 it gives one
    row, for 2022. *)
Theorem derived_rows_inner_join_product :
  (forall (l : list obs) m y,
     derived_key_count m y (derive l) =
     (key_count m y (filter (is_metric "Sales Revenue") l) *
      key_count m y (filter (is_metric "Employment (Persons)") l))%nat) /\
  map (fun d => (o_mineral (d_sales d), o_year (d_sales d)))
      (derive obs_sales_2012_2022_emp_2022) = [(u "Gold", 2022)].
Proof.
  split.
  - intros l m y. apply merge_key_count.
  - vm_compute. reflexivity.
Qed.

(** ** Binary64 facts used for the ratio *)

Lemma prim2sf_of_nan x : PrimFloat.is_nan x = true -> Prim2SF x = S754_nan.
Proof. intros H. unfold Prim2SF. rewrite H. reflexivity. Qed.

Lemma prim2sf_of_zero x :
  PrimFloat.is_nan x = false -> PrimFloat.is_zero x = true ->
  Prim2SF x = S754_zero (get_sign x).
Proof. intros Hn Hz. unfold Prim2SF. rewrite Hn, Hz. reflexivity. Qed.

Lemma prim2sf_of_finite x :
  PrimFloat.is_finite x = true -> PrimFloat.is_zero x = false ->
  exists s m e, Prim2SF x = S754_finite s m e.
Proof.
  intros Hf Hz. unfold PrimFloat.is_finite in Hf.
  apply negb_true_iff, orb_false_iff in Hf as [Hn Hi].
  destruct (Prim2SF x) as [s| s| |s m e] eqn:E; [exfalso..|eauto].
  - rewrite <- (SF2Prim_Prim2SF x), E in Hz. destruct s; vm_compute in Hz; discriminate.
  - rewrite <- (SF2Prim_Prim2SF x), E in Hi. destruct s; vm_compute in Hi; discriminate.
  - rewrite <- (SF2Prim_Prim2SF x), E in Hn. vm_compute in Hn; discriminate.
Qed.

Lemma is_nan_of_prim2sf r : Prim2SF r = S754_nan -> PrimFloat.is_nan r = true.
Proof. intros E. rewrite <- (SF2Prim_Prim2SF r), E. reflexivity. Qed.

Lemma is_infinity_of_prim2sf r s :
  Prim2SF r = S754_infinity s -> PrimFloat.is_infinity r = true.
Proof. intros E. rewrite <- (SF2Prim_Prim2SF r), E. destruct s; reflexivity. Qed.

Lemma in_derive_ratio l d :
  In d (derive l) -> d_ratio d = PrimFloat.div (o_value (d_sales d)) (o_value (d_emp d)).
Proof.
  unfold derive, merge. intros H.
  apply in_flat_map in H as [s [_ H]]. apply in_flat_map in H as [e [_ H]].
  destruct (_ && _) in H; [|contradiction].
  destruct H as [<-|[]]. reflexivity.
Qed.

(** C6 (as stated, refuted): a zero head count gives the ratio +infinity,
    a number, not an undefined value. *)
Lemma zero_employment_infinite_ratio :
  match load_data sheet_zero_emp with
  | Some (_, d :: _) =>
      o_value (d_emp d) = 0%float /\ d_ratio d = PrimFloat.infinity
  | _ => False
  end.
Proof. vm_compute. split; reflexivity. Qed.

(** C6 (amended): the ratio is the unguarded binary64 quotient
    [Value_Sales / Value_Emp]: a missing (NaN) employment value gives NaN;
    a zero employment value gives an infinity when the sales value is finite
    and non-zero, and NaN when it is zero or NaN. *)
Theorem ratio_is_unguarded_quotient (l : list obs) d (Hd : In d (derive l)) :
  d_ratio d = PrimFloat.div (o_value (d_sales d)) (o_value (d_emp d)) /\
  (PrimFloat.is_nan (o_value (d_emp d)) = true -> PrimFloat.is_nan (d_ratio d) = true) /\
  (PrimFloat.is_nan (o_value (d_emp d)) = false -> PrimFloat.is_zero (o_value (d_emp d)) = true ->
     (PrimFloat.is_finite (o_value (d_sales d)) = true ->
      PrimFloat.is_zero (o_value (d_sales d)) = false ->
      PrimFloat.is_infinity (d_ratio d) = true) /\
     (PrimFloat.is_zero (o_value (d_sales d)) || PrimFloat.is_nan (o_value (d_sales d)) = true ->
      PrimFloat.is_nan (d_ratio d) = true)).
Proof.
  pose proof (in_derive_ratio l d Hd) as Hr.
  split; [exact Hr|]. rewrite Hr.
  set (x := o_value (d_sales d)). set (y := o_value (d_emp d)).
  split.
  - intros Hy. apply is_nan_of_prim2sf.
    rewrite FloatAxioms.div_spec, (prim2sf_of_nan y Hy). unfold SF64div, SFdiv.
    destruct (Prim2SF x); reflexivity.
  - intros Hyn Hyz. split.
    + intros Hf Hz. destruct (prim2sf_of_finite x Hf Hz) as [s [m [e Hx]]].
      apply (is_infinity_of_prim2sf _ (xorb s (get_sign y))).
      rewrite FloatAxioms.div_spec, Hx, (prim2sf_of_zero y Hyn Hyz). reflexivity.
    + intros Hxz. apply is_nan_of_prim2sf.
      rewrite FloatAxioms.div_spec, (prim2sf_of_zero y Hyn Hyz).
      destruct (PrimFloat.is_nan x) eqn:Hxn.
      * rewrite (prim2sf_of_nan x Hxn). reflexivity.
      * rewrite orb_false_r in Hxz. rewrite (prim2sf_of_zero x Hxn Hxz). reflexivity.
Qed.

Lemma ratio_is_unguarded_quotient_witness :
  exists d, In d (derive (melt [project_row (nth 1 sheet_zero_emp []);
                                project_row (nth 2 sheet_zero_emp [])])) /\
  PrimFloat.is_infinity (d_ratio d) = true.
Proof.
  set (l := melt [project_row (nth 1 sheet_zero_emp []); project_row (nth 2 sheet_zero_emp [])]).
  assert (Hd : In (hd {| d_sales := obs_of rec_gold_sales 0 CEmpty;
                         d_emp := obs_of rec_gold_sales 0 CEmpty;
                         d_ratio := 0%float |} (derive l)) (derive l))
    by (vm_compute; left; reflexivity).
  eexists. split; [exact Hd|].
  apply (proj1 (proj2 (proj2 (ratio_is_unguarded_quotient l _ Hd)) eq_refl eq_refl) eq_refl eq_refl).
Defined.

(** ** The label normaliser on ASCII text *)

Lemma ascii_exhaust (P : Z -> bool) :
  forallb P ascii_points = true -> forall x, 0 <= x < 128 -> P x = true.
Proof.
  intros H x Hx. rewrite forallb_forall in H. apply H.
  unfold ascii_points. apply in_map_iff. exists (Z.to_nat x).
  split; [lia|]. apply in_seq. lia.
Qed.

Ltac ascii_fact P :=
  let x := fresh "x" in let Hx := fresh "Hx" in
  intros x Hx;
  pose proof (ascii_exhaust P ltac:(vm_compute; reflexivity) x Hx) as Hfact;
  cbv beta in Hfact.

Ltac ascii_fact_bool p Q :=
  destruct p; [ascii_fact (Q true) | ascii_fact (Q false)].

Lemma is_ascii_cons c s :
  is_ascii (c :: s) = true <-> (0 <= c < 128) /\ is_ascii s = true.
Proof.
  unfold is_ascii. simpl. rewrite andb_true_iff, andb_true_iff, Z.leb_le, Z.ltb_lt.
  tauto.
Qed.

Lemma ascii_incl a b : incl a b -> is_ascii b = true -> is_ascii a = true.
Proof.
  unfold is_ascii. rewrite !forallb_forall. intros Hi Hb x Hx. apply Hb, Hi, Hx.
Qed.

Lemma lower_full_ascii x : 0 <= x < 128 -> lower_full x = [lo1 x].
Proof.
  intros Hx. unfold lower_full, lo1. destruct (is_upper_ascii x); [reflexivity|].
  replace (x =? 304) with false by (symmetry; apply Z.eqb_neq; lia). reflexivity.
Qed.

Lemma title_full_up1 x : title_full x = [up1 x].
Proof. unfold title_full, up1. destruct (is_lower_ascii x); reflexivity. Qed.

Lemma title_aux_cons_ascii p x t :
  0 <= x < 128 -> title_aux p (x :: t) = tc p x :: title_aux (is_cased x) t.
Proof.
  intros Hx. simpl. unfold tc. destruct p.
  - rewrite (lower_full_ascii x Hx). reflexivity.
  - rewrite title_full_up1. reflexivity.
Qed.

Lemma tc_ascii p : forall x, 0 <= x < 128 -> 0 <= tc p x < 128.
Proof.
  ascii_fact_bool p (fun p x => (0 <=? tc p x) && (tc p x <? 128));
    rewrite andb_true_iff, Z.leb_le, Z.ltb_lt in Hfact; exact Hfact.
Qed.

Lemma tc_cased p : forall x, 0 <= x < 128 -> is_cased (tc p x) = is_cased x.
Proof.
  ascii_fact_bool p (fun p x => Bool.eqb (is_cased (tc p x)) (is_cased x));
    apply Bool.eqb_prop; exact Hfact.
Qed.

Lemma tc_ws p : forall x, 0 <= x < 128 -> is_ws (tc p x) = is_ws x.
Proof.
  ascii_fact_bool p (fun p x => Bool.eqb (is_ws (tc p x)) (is_ws x));
    apply Bool.eqb_prop; exact Hfact.
Qed.

(** Case mapping leaves [(], [)] and newline alone and makes none. *)
Lemma tc_punct p : forall x, 0 <= x < 128 ->
  (tc p x =? 40) = (x =? 40) /\ (tc p x =? 41) = (x =? 41) /\ (tc p x =? 10) = (x =? 10).
Proof.
  ascii_fact_bool p (fun p x => Bool.eqb (tc p x =? 40) (x =? 40) &&
                                   Bool.eqb (tc p x =? 41) (x =? 41) &&
                                   Bool.eqb (tc p x =? 10) (x =? 10));
    rewrite !andb_true_iff in Hfact; destruct Hfact as [[H1 H2] H3];
    apply Bool.eqb_prop in H1, H2, H3; auto.
Qed.

Lemma tc_titled p : forall x, 0 <= x < 128 ->
  negb (is_cased (tc p x)) || (if p then is_lower_ascii (tc p x) else is_upper_ascii (tc p x)) = true.
Proof.
  ascii_fact_bool p (fun p x => negb (is_cased (tc p x)) ||
      (if p then is_lower_ascii (tc p x) else is_upper_ascii (tc p x))); exact Hfact.
Qed.

Lemma ws_uncased : forall x, 0 <= x < 128 -> is_ws x = true -> is_cased x = false.
Proof.
  ascii_fact (fun x => negb (is_ws x) || negb (is_cased x)).
  intros Hw. rewrite Hw in Hfact. simpl in Hfact. apply negb_true_iff. exact Hfact.
Qed.

(** A character already in the case [titled] asks for is left alone. *)
Lemma tc_fixed (p : bool) (x : Z) :
  negb (is_cased x) || (if p then is_lower_ascii x else is_upper_ascii x) = true ->
  tc p x = x.
Proof.
  unfold tc, lo1, up1, is_cased, is_upper_ascii, is_lower_ascii.
  intros H. destruct p.
  - destruct ((65 <=? x) && (x <=? 90)) eqn:E; [|reflexivity].
    exfalso. rewrite andb_true_iff, !Z.leb_le in E. simpl in H.
    rewrite andb_true_iff, !Z.leb_le in H. lia.
  - destruct ((97 <=? x) && (x <=? 122)) eqn:E; [|reflexivity].
    exfalso. rewrite andb_true_iff, !Z.leb_le in E.
    rewrite orb_true_r in H. simpl in H. rewrite andb_true_iff, !Z.leb_le in H. lia.
Qed.

Lemma title_aux_ascii p l : is_ascii l = true -> is_ascii (title_aux p l) = true.
Proof.
  revert p. induction l as [|x t IH]; intros p Hl; [reflexivity|].
  apply is_ascii_cons in Hl as [Hx Ht].
  rewrite title_aux_cons_ascii by exact Hx. apply is_ascii_cons.
  split; [apply tc_ascii; exact Hx|apply IH; exact Ht].
Qed.

Lemma title_aux_titled p l : is_ascii l = true -> titled p (title_aux p l) = true.
Proof.
  revert p. induction l as [|x t IH]; intros p Hl; [reflexivity|].
  apply is_ascii_cons in Hl as [Hx Ht].
  rewrite title_aux_cons_ascii by exact Hx. simpl.
  rewrite (tc_titled p x Hx), (tc_cased p x Hx). apply IH. exact Ht.
Qed.

Lemma title_aux_fixed p l : titled p l = true -> title_aux p l = l.
Proof.
  revert p. induction l as [|x t IH]; intros p Hl; [reflexivity|].
  simpl in Hl. apply andb_true_iff in Hl as [Hx Ht].
  simpl. rewrite (IH _ Ht).
  pose proof (tc_fixed p x Hx) as Hfix. unfold tc in Hfix.
  destruct p.
  - unfold lower_full. unfold lo1 in Hfix.
    destruct (is_upper_ascii x) eqn:Eu.
    + rewrite Hfix. reflexivity.
    + destruct (x =? 304) eqn:E304; [|reflexivity].
      exfalso. apply Z.eqb_eq in E304. subst x. discriminate Hx.
  - unfold title_full. unfold up1 in Hfix.
    destruct (is_lower_ascii x); rewrite ?Hfix; reflexivity.
Qed.

Lemma title_aux_length p l : is_ascii l = true -> length (title_aux p l) = length l.
Proof.
  revert p. induction l as [|x t IH]; intros p Hl; [reflexivity|].
  apply is_ascii_cons in Hl as [Hx Ht].
  rewrite title_aux_cons_ascii by exact Hx. simpl. rewrite IH by exact Ht. reflexivity.
Qed.

Lemma title_aux_paren_free o p l :
  is_ascii l = true -> paren_free_aux o (title_aux p l) = paren_free_aux o l.
Proof.
  revert o p. induction l as [|x t IH]; intros o p Hl; [reflexivity|].
  apply is_ascii_cons in Hl as [Hx Ht].
  rewrite title_aux_cons_ascii by exact Hx. simpl.
  destruct (tc_punct p x Hx) as [H40 [H41 H10]]. rewrite H40, H41, H10.
  destruct ((x =? 41) && o); [reflexivity|]. apply IH. exact Ht.
Qed.

Lemma title_aux_lstrip l :
  is_ascii l = true -> lstrip (title_aux false l) = title_aux false (lstrip l).
Proof.
  induction l as [|x t IH]; intros Hl; [reflexivity|].
  pose proof Hl as Hl'. apply is_ascii_cons in Hl' as [Hx Ht].
  rewrite title_aux_cons_ascii by exact Hx. cbn [lstrip].
  rewrite (tc_ws false x Hx).
  destruct (is_ws x) eqn:Hw.
  - rewrite (ws_uncased x Hx Hw). apply IH. exact Ht.
  - rewrite title_aux_cons_ascii by exact Hx. reflexivity.
Qed.

Lemma title_aux_rstrip p l :
  is_ascii l = true -> rstrip (title_aux p l) = title_aux p (rstrip l).
Proof.
  revert p. induction l as [|x t IH]; intros p Hl; [reflexivity|].
  pose proof Hl as Hl'. apply is_ascii_cons in Hl' as [Hx Ht].
  rewrite title_aux_cons_ascii by exact Hx. cbn [rstrip]. rewrite IH by exact Ht.
  assert (Hr : is_ascii (rstrip t) = true).
  { apply (ascii_incl _ t); [|exact Ht].
    intros y Hy. clear -Hy. induction t as [|z t IHt]; [exact Hy|].
    simpl in Hy. destruct (rstrip t) as [|w r].
    - destruct (is_ws z); [contradiction|]. destruct Hy as [<-|[]]. left. reflexivity.
    - destruct Hy as [<-|Hy]; [left; reflexivity|right; apply IHt; exact Hy]. }
  destruct (rstrip t) as [|w r] eqn:E.
  - simpl. rewrite (tc_ws p x Hx). destruct (is_ws x); [reflexivity|].
    rewrite title_aux_cons_ascii by exact Hx. reflexivity.
  - rewrite (title_aux_cons_ascii p x) by exact Hx.
    rewrite (title_aux_cons_ascii _ w) by (apply is_ascii_cons in Hr; tauto).
    reflexivity.
Qed.

(** *** Stripping *)

Lemma lstrip_suffix l : exists pre, l = pre ++ lstrip l.
Proof.
  induction l as [|x t [pre IH]]; [exists []; reflexivity|]. simpl.
  destruct (is_ws x); [exists (x :: pre); simpl; congruence|exists []; reflexivity].
Qed.

Lemma rstrip_prefix l : exists suf, l = rstrip l ++ suf.
Proof.
  induction l as [|x t [suf IH]]; [exists []; reflexivity|]. simpl.
  destruct (rstrip t) as [|y r] eqn:E.
  - destruct (is_ws x); [exists (x :: t); reflexivity|exists t; reflexivity].
  - exists suf. rewrite IH at 1. reflexivity.
Qed.

Lemma strip_incl l : incl (strip l) l.
Proof.
  unfold strip. destruct (lstrip_suffix l) as [pre Hpre].
  destruct (rstrip_prefix (lstrip l)) as [suf Hsuf].
  intros y Hy. rewrite Hpre. apply in_or_app. right.
  rewrite Hsuf. apply in_or_app. left. exact Hy.
Qed.

Lemma lstrip_head l : match lstrip l with [] => True | x :: _ => is_ws x = false end.
Proof.
  induction l as [|x t IH]; simpl; [exact I|].
  destruct (is_ws x) eqn:E; [exact IH|exact E].
Qed.

Lemma lstrip_rstrip l :
  match l with [] => True | x :: _ => is_ws x = false end -> lstrip (rstrip l) = rstrip l.
Proof.
  destruct l as [|x t]; [reflexivity|]. intros Hx. simpl.
  destruct (rstrip t); [rewrite Hx|]; simpl; rewrite Hx; reflexivity.
Qed.

Lemma rstrip_idem l : rstrip (rstrip l) = rstrip l.
Proof.
  induction l as [|x t IH]; [reflexivity|]. simpl.
  destruct (rstrip t) as [|y r] eqn:E.
  - destruct (is_ws x) eqn:Hx; [reflexivity|]. simpl. rewrite Hx. reflexivity.
  - change (rstrip (x :: y :: r)) with
      (match rstrip (y :: r) with [] => if is_ws x then [] else [x] | r' => x :: r' end).
    rewrite IH. reflexivity.
Qed.

Lemma strip_idem l : strip (strip l) = strip l.
Proof.
  unfold strip. rewrite lstrip_rstrip by apply lstrip_head. apply rstrip_idem.
Qed.

(** *** The regular expression of line 33 *)

Lemma paren_free_mono l : paren_free_aux true l = true -> paren_free_aux false l = true.
Proof.
  induction l as [|x t IH]; simpl; [reflexivity|].
  destruct (x =? 41); simpl; [discriminate|].
  destruct (x =? 40); [tauto|]. destruct (x =? 10); tauto.
Qed.

Lemma paren_free_app_r o l1 l2 :
  paren_free_aux o (l1 ++ l2) = true -> paren_free_aux false l2 = true.
Proof.
  revert o. induction l1 as [|x t IH]; intros o H.
  - destruct o; [apply paren_free_mono|]; exact H.
  - simpl in H. destruct ((x =? 41) && o); [discriminate|]. exact (IH _ H).
Qed.

Lemma paren_free_app_l o l1 l2 :
  paren_free_aux o (l1 ++ l2) = true -> paren_free_aux o l1 = true.
Proof.
  revert o. induction l1 as [|x t IH]; intros o H; [reflexivity|].
  simpl in *. destruct ((x =? 41) && o); [discriminate|]. exact (IH _ H).
Qed.

Lemma paren_free_open_close mid r :
  ~ In 10 mid -> paren_free_aux true (mid ++ 41 :: r) = false.
Proof.
  induction mid as [|x t IH]; intros Hn; [reflexivity|]. simpl.
  destruct (x =? 41); [reflexivity|]. simpl.
  destruct (Z.eqb_spec x 40); [apply IH; intros H; apply Hn; right; exact H|].
  destruct (Z.eqb_spec x 10); [exfalso; apply Hn; left; congruence|].
  apply IH. intros H. apply Hn. right. exact H.
Qed.

Lemma skip_ws_suffix s : exists pre, s = pre ++ skip_ws s.
Proof.
  induction s as [|x t [pre IH]]; [exists []; reflexivity|]. simpl.
  destruct (is_ws x); [exists (x :: pre); simpl; congruence|exists []; reflexivity].
Qed.

Lemma after_last_close_none t : after_last_close t = None -> no_close_in_line t = true.
Proof.
  induction t as [|x t IH]; simpl; [reflexivity|].
  destruct (x =? 10); [reflexivity|].
  destruct (after_last_close t); [discriminate|].
  destruct (x =? 41); [discriminate|]. intros _. apply IH. reflexivity.
Qed.

Lemma after_last_close_some t r :
  after_last_close t = Some r ->
  (exists mid, t = mid ++ 41 :: r /\ ~ In 10 mid) /\ no_close_in_line r = true.
Proof.
  revert r. induction t as [|x t IH]; intros r; simpl; [discriminate|].
  destruct (Z.eqb_spec x 10); [discriminate|].
  destruct (after_last_close t) as [r'|] eqn:E.
  - intros [= <-]. destruct (IH r' eq_refl) as [[mid [Ht Hn]] Hr].
    split; [|exact Hr]. exists (x :: mid). split; [simpl; congruence|].
    intros [H|H]; [congruence|contradiction].
  - destruct (Z.eqb_spec x 41); [|discriminate]. intros [= <-]. subst x.
    split; [exists []; split; [reflexivity|intros []]|].
    apply after_last_close_none. exact E.
Qed.

Lemma match_at_some s r :
  match_at s = Some r ->
  (exists pre mid, s = pre ++ 40 :: mid ++ 41 :: r /\ ~ In 10 mid) /\
  no_close_in_line r = true.
Proof.
  unfold match_at. destruct (skip_ws_suffix s) as [pre Hpre].
  destruct (skip_ws s) as [|c t] eqn:E; [discriminate|].
  destruct (Z.eqb_spec c 40); [subst c|discriminate]. intros H.
  destruct (after_last_close_some _ _ H) as [[mid [Ht Hn]] Hr].
  split; [|exact Hr]. exists pre, mid. split; [congruence|exact Hn].
Qed.

Lemma paren_free_no_match s : paren_free_aux false s = true -> match_at s = None.
Proof.
  intros H. destruct (match_at s) as [r|] eqn:E; [|reflexivity]. exfalso.
  destruct (match_at_some _ _ E) as [[pre [mid [Hs Hn]]] _]. subst s.
  apply paren_free_app_r in H. simpl in H.
  rewrite paren_free_open_close in H by exact Hn. discriminate.
Qed.

Lemma sub_paren_fuel_id n s : paren_free_aux false s = true -> sub_paren_fuel n s = s.
Proof.
  revert s. induction n as [|n IH]; intros s H; [reflexivity|].
  destruct s as [|x t]; [reflexivity|]. simpl sub_paren_fuel.
  rewrite (paren_free_no_match _ H). f_equal. apply IH.
  exact (paren_free_app_r false [x] t H).
Qed.

(** The text the substitution leaves has no match left. *)
Lemma sub_paren_fuel_paren_free n y o :
  (length y <= n)%nat -> (o = true -> no_close_in_line y = true) ->
  paren_free_aux o (sub_paren_fuel n y) = true.
Proof.
  revert y o. induction n as [|n IH]; intros y o Hlen Hinv.
  - destruct y; [reflexivity|simpl in Hlen; lia].
  - destruct y as [|x t]; [reflexivity|]. simpl sub_paren_fuel.
    destruct (match_at (x :: t)) as [r|] eqn:E.
    + destruct (match_at_some _ _ E) as [[pre [mid [Hs _]]] Hr].
      apply IH; [|intros _; exact Hr].
      apply (f_equal (@length Z)) in Hs. rewrite length_app in Hs. simpl in Hs.
      rewrite length_app in Hs. simpl in *. lia.
    + simpl. simpl in Hlen.
      destruct (Z.eqb_spec x 41).
      * subst x. destruct o; [specialize (Hinv eq_refl); discriminate Hinv|].
        simpl. apply IH; [lia|discriminate].
      * simpl. destruct (Z.eqb_spec x 40).
        -- subst x. apply IH; [lia|]. intros _.
           apply after_last_close_none. exact E.
        -- destruct (Z.eqb_spec x 10); (apply IH; [lia|]); [discriminate|].
           intros Ho. specialize (Hinv Ho). simpl in Hinv.
           destruct (Z.eqb_spec x 10); [contradiction|].
           destruct (Z.eqb_spec x 41); [contradiction|]. exact Hinv.
Qed.

Lemma sub_paren_paren_free s : paren_free_aux false (sub_paren s) = true.
Proof. apply sub_paren_fuel_paren_free; [lia|discriminate]. Qed.

Lemma sub_paren_fuel_incl n s : incl (sub_paren_fuel n s) s.
Proof.
  revert s. induction n as [|n IH]; intros s; [apply incl_refl|].
  destruct s as [|x t]; [apply incl_refl|]. simpl sub_paren_fuel.
  destruct (match_at (x :: t)) as [r|] eqn:E.
  - destruct (match_at_some _ _ E) as [[pre [mid [Hs _]]] _].
    intros y Hy. apply IH in Hy. rewrite Hs. apply in_or_app. right. right.
    apply in_or_app. right. right. exact Hy.
  - apply incl_cons; [left; reflexivity|]. intros y Hy. right. apply IH, Hy.
Qed.

(** *** Removing "Mining of " *)

Lemma prefixb_app p s : prefixb p s = true -> exists r, s = p ++ r.
Proof.
  revert s. induction p as [|a p IH]; intros s H; [exists s; reflexivity|].
  destruct s as [|b s]; [discriminate|]. simpl in H.
  apply andb_true_iff in H as [Hab Hp]. apply Z.eqb_eq in Hab. subst b.
  destruct (IH s Hp) as [r ->]. exists r. reflexivity.
Qed.

Lemma remove_all_fuel_id n old s :
  no_occurrence old s = true -> remove_all_fuel n old s = s.
Proof.
  revert s. induction n as [|n IH]; intros s H; [reflexivity|].
  destruct s as [|x t]; [reflexivity|]. simpl in H.
  apply andb_true_iff in H as [Hp Ht]. apply negb_true_iff in Hp.
  simpl. rewrite Hp. f_equal. apply IH. exact Ht.
Qed.

Lemma remove_all_fuel_incl n old s : incl (remove_all_fuel n old s) s.
Proof.
  revert s. induction n as [|n IH]; intros s; [apply incl_refl|].
  destruct s as [|x t]; [apply incl_refl|]. simpl.
  destruct (prefixb old (x :: t)).
  - intros y Hy. apply IH in Hy. rewrite <- (firstn_skipn (length old) (x :: t)).
    apply in_or_app. right. exact Hy.
  - apply incl_cons; [left; reflexivity|]. intros y Hy. right. apply IH, Hy.
Qed.

(** Title-cased text never contains "Mining of ": its "o" would be upper case. *)
Lemma titled_no_mining_of p l : titled p l = true -> no_occurrence (u "Mining of ") l = true.
Proof.
  revert p. induction l as [|x t IH]; intros p H; [reflexivity|].
  cbn [no_occurrence]. pose proof H as H'. simpl in H'. apply andb_true_iff in H' as [_ Ht].
  rewrite (IH _ Ht), andb_true_r. apply negb_true_iff.
  destruct (prefixb (u "Mining of ") (x :: t)) eqn:E; [|reflexivity].
  apply prefixb_app in E as [r Er]. rewrite Er in H. destruct p; discriminate H.
Qed.

(** C9 (as stated, refuted): [str.title] is not idempotent on all text.  In
    "aİb" the "İ" after a cased letter is lower-cased to "i" followed by the
    uncased U+0307, so a second pass upper-cases the "b". *)
Lemma normalizer_not_idempotent_unicode :
  clean_mineral label_non_ascii = [65; 105; 775; 98] /\
  clean_mineral (clean_mineral label_non_ascii) = [65; 105; 775; 66] /\
  clean_mineral (clean_mineral label_non_ascii) <> clean_mineral label_non_ascii.
Proof. vm_compute. split; [reflexivity|split; [reflexivity|discriminate]]. Qed.

(** C9 (amended): on labels of ASCII characters the normaliser (remove
    "Mining of ", remove the parenthesised part, strip, title-case) is
    idempotent. *)
Theorem clean_mineral_idempotent_ascii s (Hs : is_ascii s = true) :
  clean_mineral (clean_mineral s) = clean_mineral s.
Proof.
  set (b := sub_paren (remove_all (u "Mining of ") s)).
  assert (Hb : is_ascii b = true).
  { apply (ascii_incl _ s); [|exact Hs]. intros y Hy.
    apply sub_paren_fuel_incl in Hy. apply remove_all_fuel_incl in Hy. exact Hy. }
  set (c := strip b).
  assert (Hc : is_ascii c = true) by (apply (ascii_incl _ b); [apply strip_incl|exact Hb]).
  assert (Hd : clean_mineral s = title_aux false c) by reflexivity.
  rewrite Hd. set (d := title_aux false c).
  assert (Hda : is_ascii d = true) by (apply title_aux_ascii; exact Hc).
  assert (Hdt : titled false d = true) by (apply title_aux_titled; exact Hc).
  unfold clean_mineral, title.
  (* the phrase: title case leaves no "Mining of " *)
  unfold remove_all. rewrite remove_all_fuel_id by (apply (titled_no_mining_of false); exact Hdt).
  (* the parenthesis: nothing left to match *)
  unfold sub_paren. rewrite sub_paren_fuel_id.
  2: { unfold d. rewrite title_aux_paren_free by exact Hc.
       unfold c, strip. destruct (rstrip_prefix (lstrip b)) as [suf Hsuf].
       apply (paren_free_app_l _ _ suf). rewrite <- Hsuf.
       destruct (lstrip_suffix b) as [pre Hpre].
       apply (paren_free_app_r false pre). rewrite <- Hpre.
       apply sub_paren_paren_free. }
  (* the strip: [d] has no surrounding white space *)
  assert (Hls : is_ascii (lstrip c) = true).
  { apply (ascii_incl _ c); [|exact Hc].
    destruct (lstrip_suffix c) as [pre Hpre]. intros y Hy.
    rewrite Hpre. apply in_or_app. right. exact Hy. }
  replace (strip d) with d.
  2: { unfold d, strip. rewrite title_aux_lstrip by exact Hc.
       rewrite title_aux_rstrip by exact Hls. fold (strip c). unfold c.
       rewrite strip_idem. reflexivity. }
  (* the title case: [d] is title-cased already *)
  apply title_aux_fixed. exact Hdt.
Qed.

Lemma clean_mineral_idempotent_ascii_witness :
  is_ascii (u "Mining of Coal and Lignite (incl. peat)") = true /\
  clean_mineral (clean_mineral (u "Mining of Coal and Lignite (incl. peat)")) =
  clean_mineral (u "Mining of Coal and Lignite (incl. peat)").
Proof.
  assert (H : is_ascii (u "Mining of Coal and Lignite (incl. peat)") = true)
    by (vm_compute; reflexivity).
  split; [exact H|]. exact (clean_mineral_idempotent_ascii _ H).
Defined.

(** ** The mineral selection *)

Lemma existsb_ustr_in m l : existsb (ustr_eqb m) l = true <-> In m l.
Proof.
  rewrite existsb_exists. split.
  - intros [x [Hx E]]. apply ustr_eqb_eq in E. subst. exact Hx.
  - intros H. exists m. split; [exact H|]. apply ustr_eqb_eq. reflexivity.
Qed.

Lemma existsb_ustr_false m l : existsb (ustr_eqb m) l = false <-> ~ In m l.
Proof.
  rewrite <- existsb_ustr_in. destruct (existsb (ustr_eqb m) l); split; congruence.
Qed.

Lemma remove_first_spec m l :
  NoDup l -> forall x, In x (remove_first m l) <-> In x l /\ x <> m.
Proof.
  induction l as [|y t IH]; intros Hnd x; simpl; [tauto|].
  inversion Hnd as [|? ? Hy Ht]; subst.
  destruct (ustr_eqb y m) eqn:E.
  - apply ustr_eqb_eq in E. subst. split.
    + intros Hx. split; [auto|]. intros ->. contradiction.
    + intros [[->|Hx] Hne]; [contradiction|exact Hx].
  - assert (y <> m) by (intros ->; rewrite (proj2 (ustr_eqb_eq m m) eq_refl) in E; discriminate).
    simpl. rewrite (IH Ht). split.
    + intros [->|[Hx Hne]]; auto.
    + intros [[->|Hx] Hne]; auto.
Qed.

Lemma remove_first_nodup m l : NoDup l -> NoDup (remove_first m l).
Proof.
  induction l as [|y t IH]; intros Hnd; simpl; [constructor|].
  inversion Hnd as [|? ? Hy Ht]; subst.
  destruct (ustr_eqb y m) eqn:E; [exact Ht|].
  constructor; [|exact (IH Ht)].
  intros Hin. apply (remove_first_spec m t Ht) in Hin as [Hin _]. contradiction.
Qed.

Lemma remove_first_app_notin m l r :
  ~ In m l -> remove_first m (l ++ r) = l ++ remove_first m r.
Proof.
  induction l as [|y t IH]; intros Hm; simpl; [reflexivity|].
  destruct (ustr_eqb y m) eqn:E.
  - apply ustr_eqb_eq in E. subst. exfalso. apply Hm. left. reflexivity.
  - rewrite IH; [reflexivity|]. intros H. apply Hm. right. exact H.
Qed.

Lemma toggle_nodup m l : NoDup l -> NoDup (toggle_mineral m l).
Proof.
  intros Hnd. unfold toggle_mineral.
  destruct (existsb (ustr_eqb m) l) eqn:E.
  - apply remove_first_nodup. exact Hnd.
  - apply existsb_ustr_false in E.
    apply NoDup_app; [exact Hnd|repeat constructor; simpl; tauto|].
    intros x Hx [<-|[]]. contradiction.
Qed.

Lemma toggle_mem m l x :
  NoDup l ->
  existsb (ustr_eqb x) (toggle_mineral m l) =
  xorb (existsb (ustr_eqb x) l) (if list_eq_dec Z.eq_dec m x then true else false).
Proof.
  intros Hnd. unfold toggle_mineral.
  destruct (existsb (ustr_eqb m) l) eqn:E.
  - apply existsb_ustr_in in E.
    destruct (existsb (ustr_eqb x) (remove_first m l)) eqn:F.
    + apply existsb_ustr_in, (remove_first_spec m l Hnd) in F as [Hx Hne].
      rewrite (proj2 (existsb_ustr_in x l) Hx).
      destruct (list_eq_dec Z.eq_dec m x); [congruence|reflexivity].
    + apply existsb_ustr_false in F.
      destruct (list_eq_dec Z.eq_dec m x) as [<-|Hne].
      * rewrite (proj2 (existsb_ustr_in m l) E). reflexivity.
      * destruct (existsb (ustr_eqb x) l) eqn:G; [|reflexivity].
        apply existsb_ustr_in in G. exfalso. apply F.
        apply (remove_first_spec m l Hnd). auto.
  - rewrite existsb_app. simpl. rewrite orb_false_r.
    destruct (list_eq_dec Z.eq_dec m x) as [<-|Hne].
    + rewrite E, (proj2 (ustr_eqb_eq m m) eq_refl). reflexivity.
    + destruct (ustr_eqb x m) eqn:G; [apply ustr_eqb_eq in G; congruence|].
      rewrite orb_false_r, xorb_false_r. reflexivity.
Qed.

Lemma toggles_cons m ms sel : toggles (m :: ms) sel = toggles ms (toggle_mineral m sel).
Proof. reflexivity. Qed.

Lemma toggles_spec ms : forall sel, NoDup sel ->
  NoDup (toggles ms sel) /\
  forall x, existsb (ustr_eqb x) (toggles ms sel) =
            xorb (existsb (ustr_eqb x) sel) (Nat.odd (count_occ (list_eq_dec Z.eq_dec) ms x)).
Proof.
  induction ms as [|m ms IH]; intros sel Hnd.
  - split; [exact Hnd|]. intros x. simpl. rewrite xorb_false_r. reflexivity.
  - rewrite toggles_cons. destruct (IH _ (toggle_nodup m sel Hnd)) as [H1 H2].
    split; [exact H1|]. intros x. rewrite H2, (toggle_mem m sel x Hnd). simpl.
    destruct (list_eq_dec Z.eq_dec m x).
    + rewrite Nat.odd_succ, <- Nat.negb_odd.
      destruct (existsb (ustr_eqb x) sel), (Nat.odd (count_occ (list_eq_dec Z.eq_dec) ms x));
        reflexivity.
    + rewrite xorb_false_r. reflexivity.
Qed.

Lemma initial_selection_nodup : NoDup initial_selection.
Proof.
  unfold initial_selection. repeat constructor; vm_compute; intuition discriminate.
Qed.

(** Clicking mineral buttons, starting from the initial selection, never puts
    a mineral twice in the selection, and a mineral is selected exactly when
    it was initially selected xor its button was clicked an odd number of
    times. *)
Theorem selection_after_clicks (ms : list ustr) :
  NoDup (toggles ms initial_selection) /\
  forall m, existsb (ustr_eqb m) (toggles ms initial_selection) =
            xorb (existsb (ustr_eqb m) initial_selection)
                 (Nat.odd (count_occ (list_eq_dec Z.eq_dec) ms m)).
Proof. exact (toggles_spec ms initial_selection initial_selection_nodup). Qed.

(** Clicking the same button twice restores a duplicate-free selection when
    the mineral was not selected, and moves it to the end of the selection
    when it was. *)
Theorem toggle_twice (m : ustr) (sel : list ustr) (Hnd : NoDup sel) :
  toggle_mineral m (toggle_mineral m sel) =
  if existsb (ustr_eqb m) sel then remove_first m sel ++ [m] else sel.
Proof.
  unfold toggle_mineral at 2. destruct (existsb (ustr_eqb m) sel) eqn:E.
  - unfold toggle_mineral.
    replace (existsb (ustr_eqb m) (remove_first m sel)) with false; [reflexivity|].
    symmetry. apply existsb_ustr_false. intros H.
    apply (remove_first_spec m sel Hnd) in H as [_ H]. apply H. reflexivity.
  - unfold toggle_mineral. rewrite existsb_app. simpl.
    rewrite (proj2 (ustr_eqb_eq m m) eq_refl), orb_true_r.
    apply existsb_ustr_false in E.
    rewrite remove_first_app_notin by exact E. simpl.
    rewrite (proj2 (ustr_eqb_eq m m) eq_refl), app_nil_r. reflexivity.
Qed.

Lemma toggle_twice_witness :
  NoDup initial_selection /\
  toggle_mineral (u "Total Industry") (toggle_mineral (u "Total Industry") initial_selection) =
  [u "Platinum Group Metal Ore"; u "Coal And Lignite"; u "Total Industry"] /\
  toggle_mineral (u "Gold") (toggle_mineral (u "Gold") initial_selection) = initial_selection.
Proof.
  split; [exact initial_selection_nodup|split].
  - rewrite (toggle_twice _ _ initial_selection_nodup). vm_compute. reflexivity.
  - rewrite (toggle_twice _ _ initial_selection_nodup). vm_compute. reflexivity.
Defined.

(** ** The sheet's first row and the rows kept *)

Lemma filter_map_length {A B} (p : B -> bool) (f : A -> B) (l : list A) :
  length (filter p (map f l)) = length (filter (fun x => p (f x)) l).
Proof. induction l as [|x l IH]; simpl; [reflexivity|]. destruct (p (f x)); simpl; auto. Qed.

(** The long table has four rows for each row after the first whose code
    cell (column 2) is present; a row with an empty code cell, or shorter than
    three cells, gives none. *)
Theorem long_table_row_count grid obs der (H : load_data grid = Some (obs, der)) :
  length obs = (4 * length (filter (fun row => negb (cell_isna (nth 2 row CEmpty))) (tl grid)))%nat.
Proof.
  apply load_data_inv in H as [recs [Hp [-> _]]].
  rewrite melt_length. unfold project in Hp.
  destruct (Nat.ltb (frame_width grid) 14); [discriminate|].
  injection Hp as <-. rewrite filter_map_length. reflexivity.
Qed.

Lemma long_table_row_count_witness :
  load_data sheet_short_rows =
    Some (melt [project_row (nth 1 sheet_short_rows [])],
          derive (melt [project_row (nth 1 sheet_short_rows [])])) /\
  length (melt [project_row (nth 1 sheet_short_rows [])]) =
  (4 * length (filter (fun row => negb (cell_isna (nth 2 row CEmpty))) (tl sheet_short_rows)))%nat.
Proof.
  assert (H : load_data sheet_short_rows =
    Some (melt [project_row (nth 1 sheet_short_rows [])],
          derive (melt [project_row (nth 1 sheet_short_rows [])]))) by (vm_compute; reflexivity).
  split; [exact H|]. exact (long_table_row_count _ _ _ H).
Defined.

(** ** Metric names and the charts that select on them *)

Lemma obs_metric grid obs der o :
  load_data grid = Some (obs, der) -> In o obs ->
  o_metric o = extract_metric (cell_str (o_code o)) /\
  o_metric_name o = metric_name (o_metric o).
Proof.
  intros H Ho. apply load_data_inv in H as [recs [_ [-> _]]].
  apply in_melt in Ho as [yc [r [_ [_ ->]]]]. split; reflexivity.
Qed.

Lemma extract_metric_some s p :
  extract_metric s = Some p -> p <> [] /\ forallb is_upper_ascii p = true.
Proof.
  unfold extract_metric. destruct (lead_upper_spec s) as [rest [_ [Hu _]]].
  destruct (lead_upper s) as [|c t] eqn:E; [discriminate|].
  intros Hp. injection Hp as <-. split; [discriminate|exact Hu].
Qed.

Lemma lookup_in k v m : lookup k m = Some v -> In (k, v) m.
Proof.
  induction m as [|[k' v'] m IH]; simpl; [discriminate|].
  destruct (ustr_eqb k k') eqn:E.
  - apply ustr_eqb_eq in E. subst. intros Hv. injection Hv as <-. left. reflexivity.
  - intros Hv. right. exact (IH Hv).
Qed.

(** Every value of the Metric column is null (the code has no letter prefix),
    a display name of [metric_map] for a code of the map, or else the code's
    letter prefix itself: a non-empty run of upper-case ASCII letters that is
    not a key of the map. *)
Theorem metric_column_values grid obs der (H : load_data grid = Some (obs, der))
  o (Ho : In o obs) :
  match o_metric_name o with
  | None => o_metric o = None
  | Some n =>
      (exists k, In (k, n) metric_map /\ o_metric o = Some k) \/
      (o_metric o = Some n /\ lookup n metric_map = None /\
       n <> [] /\ forallb is_upper_ascii n = true)
  end.
Proof.
  destruct (obs_metric _ _ _ _ H Ho) as [Hm Hn]. rewrite Hn.
  unfold metric_name. destruct (o_metric o) as [m|] eqn:Em; [|reflexivity].
  destruct (lookup m metric_map) as [v|] eqn:El.
  - left. exists m. split; [apply lookup_in; exact El|reflexivity].
  - right. split; [reflexivity|]. split; [exact El|].
    apply (extract_metric_some (cell_str (o_code o))). symmetry. exact Hm.
Qed.

Lemma metric_column_values_witness :
  exists o, In o (melt [project_row (nth 1 sheet_bad_code [])]) /\
  match o_metric_name o with
  | None => o_metric o = None
  | Some n =>
      (exists k, In (k, n) metric_map /\ o_metric o = Some k) \/
      (o_metric o = Some n /\ lookup n metric_map = None /\
       n <> [] /\ forallb is_upper_ascii n = true)
  end.
Proof.
  assert (H : load_data sheet_bad_code =
    Some (melt [project_row (nth 1 sheet_bad_code [])],
          derive (melt [project_row (nth 1 sheet_bad_code [])]))) by (vm_compute; reflexivity).
  exists (obs_of (project_row (nth 1 sheet_bad_code [])) 2012 (num 100 "100")).
  assert (Ho : In (obs_of (project_row (nth 1 sheet_bad_code [])) 2012 (num 100 "100"))
                  (melt [project_row (nth 1 sheet_bad_code [])]))
    by (vm_compute; left; reflexivity).
  split; [exact Ho|]. exact (metric_column_values _ _ _ H _ Ho).
Defined.

Lemma in_table_values k n : In (k, n) metric_map -> In n (map snd metric_map).
Proof. intros H. apply in_map_iff. exists (k, n). auto. Qed.

(** The expenditure chart asks for 'Total Expenditure', 'Salaries & Wages'
    and 'Utilities', but no row of the long table has either of the last two
    metrics: every row it shows is a 'Total Expenditure' row. *)
Theorem costs_only_total_expenditure grid obs der (H : load_data grid = Some (obs, der))
  (selected : list ustr) o (Ho : In o (costs_rows selected obs)) :
  o_metric_name o = Some (u "Total Expenditure").
Proof.
  unfold costs_rows in Ho. apply filter_In in Ho as [Ho Hf].
  pose proof (metric_column_values _ _ _ H _ Ho) as Hshape.
  destruct (o_metric_name o) as [n|]; [|discriminate].
  apply andb_true_iff in Hf as [Hc _]. apply existsb_ustr_in in Hc.
  destruct Hc as [<-|[<-|[<-|[]]]]; [reflexivity| |];
  (destruct Hshape as [[k [Hk _]]|[_ [_ [_ Hu]]]];
   [apply in_table_values in Hk; apply existsb_ustr_in in Hk; vm_compute in Hk; discriminate
   |vm_compute in Hu; discriminate]).
Qed.

Lemma costs_only_total_expenditure_witness :
  load_data sheet_costs =
    Some (melt (map project_row (tl sheet_costs)),
          derive (melt (map project_row (tl sheet_costs)))) /\
  length (costs_rows [u "Total Industry"] (melt (map project_row (tl sheet_costs)))) = 4%nat /\
  Forall (fun o => o_metric_name o = Some (u "Total Expenditure"))
     (costs_rows [u "Total Industry"] (melt (map project_row (tl sheet_costs)))).
Proof.
  assert (H : load_data sheet_costs =
    Some (melt (map project_row (tl sheet_costs)),
          derive (melt (map project_row (tl sheet_costs))))) by (vm_compute; reflexivity).
  split; [exact H|]. split; [vm_compute; reflexivity|].
  apply Forall_forall. intros o Ho. exact (costs_only_total_expenditure _ _ _ H _ _ Ho).
Defined.

(** ** The rows of the sales-per-employee table *)

Lemma in_merge d sales employment :
  In d (merge sales employment) ->
  In (d_sales d) sales /\ In (d_emp d) employment /\
  o_mineral (d_sales d) = o_mineral (d_emp d) /\ o_year (d_sales d) = o_year (d_emp d).
Proof.
  unfold merge. intros H.
  apply in_flat_map in H as [s [Hs H]]. apply in_flat_map in H as [e [He H]].
  destruct (ustr_eqb (o_mineral s) (o_mineral e) && (o_year s =? o_year e)) eqn:E;
    [|contradiction].
  destruct H as [<-|[]]. apply andb_true_iff in E as [E1 E2].
  apply ustr_eqb_eq in E1. apply Z.eqb_eq in E2. simpl. auto.
Qed.

(** A display name of the map that is not all upper case comes from one code
    only. *)
Lemma metric_code_of_name grid obs der o k n :
  load_data grid = Some (obs, der) -> In o obs -> o_metric_name o = Some n ->
  forallb is_upper_ascii n = false ->
  (forall k', In (k', n) metric_map -> k' = k) ->
  o_metric o = Some k.
Proof.
  intros H Ho Hn Hu Hk. pose proof (metric_column_values _ _ _ H _ Ho) as Hs.
  rewrite Hn in Hs. destruct Hs as [[k' [Hk' Hm]]|[_ [_ [_ Hu']]]].
  - rewrite Hm, (Hk _ Hk'). reflexivity.
  - congruence.
Qed.

Lemma sales_key k : In (k, u "Sales Revenue") metric_map -> k = u "FISALES".
Proof.
  intros H. cbn [In metric_map] in H.
  destruct H as [E|[E|[E|[E|[E|[E|[]]]]]]]; inversion E; reflexivity.
Qed.

Lemma employment_key k : In (k, u "Employment (Persons)") metric_map -> k = u "FEMPTOT".
Proof.
  intros H. cbn [In metric_map] in H.
  destruct H as [E|[E|[E|[E|[E|[E|[]]]]]]]; inversion E; reflexivity.
Qed.

Lemma is_metric_name name o : is_metric name o = true -> o_metric_name o = Some (u name).
Proof.
  unfold is_metric. destruct (o_metric_name o) as [n|]; [|discriminate].
  intros E. apply ustr_eqb_eq in E. rewrite E. reflexivity.
Qed.

(** Each row of the sales-per-employee table pairs a row of the long table
    whose code has the letter prefix exactly "FISALES" with one whose code has
    the prefix exactly "FEMPTOT", of the same mineral and year. *)
Theorem derived_row_pairs grid obs der (H : load_data grid = Some (obs, der))
  d (Hd : In d der) :
  In (d_sales d) obs /\ In (d_emp d) obs /\
  o_metric (d_sales d) = Some (u "FISALES") /\
  o_metric (d_emp d) = Some (u "FEMPTOT") /\
  o_mineral (d_sales d) = o_mineral (d_emp d) /\ o_year (d_sales d) = o_year (d_emp d).
Proof.
  pose proof H as H'. apply load_data_inv in H' as [recs [_ [_ ->]]].
  unfold derive in Hd. apply in_merge in Hd as [Hs [He [Hm Hy]]].
  apply filter_In in Hs as [Hs Hs']. apply filter_In in He as [He He'].
  split; [exact Hs|]. split; [exact He|]. split; [|split; [|auto]].
  - apply (metric_code_of_name grid obs _ _ _ (u "Sales Revenue") H Hs).
    + apply is_metric_name. exact Hs'.
    + vm_compute. reflexivity.
    + exact sales_key.
  - apply (metric_code_of_name grid obs _ _ _ (u "Employment (Persons)") H He).
    + apply is_metric_name. exact He'.
    + vm_compute. reflexivity.
    + exact employment_key.
Qed.

Lemma derived_row_pairs_witness :
  load_data sheet_zero_emp =
    Some (melt (map project_row (tl sheet_zero_emp)),
          derive (melt (map project_row (tl sheet_zero_emp)))) /\
  length (derive (melt (map project_row (tl sheet_zero_emp)))) = 4%nat /\
  Forall (fun d =>
    In (d_sales d) (melt (map project_row (tl sheet_zero_emp))) /\
    In (d_emp d) (melt (map project_row (tl sheet_zero_emp))) /\
    o_metric (d_sales d) = Some (u "FISALES") /\
    o_metric (d_emp d) = Some (u "FEMPTOT") /\
    o_mineral (d_sales d) = o_mineral (d_emp d) /\ o_year (d_sales d) = o_year (d_emp d))
    (derive (melt (map project_row (tl sheet_zero_emp)))).
Proof.
  assert (H : load_data sheet_zero_emp =
    Some (melt (map project_row (tl sheet_zero_emp)),
          derive (melt (map project_row (tl sheet_zero_emp))))) by (vm_compute; reflexivity).
  split; [exact H|]. split; [vm_compute; reflexivity|].
  apply Forall_forall. intros d Hd. exact (derived_row_pairs _ _ _ H _ Hd).
Defined.

(** ** The year slider *)

Lemma map_const_repeat {A B} (x : B) (l : list A) : map (fun _ => x) l = repeat x (length l).
Proof. induction l as [|a l IH]; simpl; congruence. Qed.

Lemma melt_years recs :
  map o_year (melt recs) = flat_map (fun yc => repeat (fst yc) (length recs)) year_cols.
Proof.
  unfold melt. rewrite !flat_map_concat_map, concat_map, map_map. f_equal.
  apply map_ext. intros yc. rewrite map_map. exact (map_const_repeat (fst yc) recs).
Qed.

Lemma unique_step_present y k acc :
  existsb (Z.eqb y) acc = true ->
  fold_left (fun acc x => if existsb (Z.eqb x) acc then acc else acc ++ [x]) (repeat y k) acc = acc.
Proof. induction k as [|k IH]; intros E; simpl; [reflexivity|]. rewrite E. exact (IH E). Qed.

Lemma unique_step_block y k acc :
  existsb (Z.eqb y) acc = false ->
  fold_left (fun acc x => if existsb (Z.eqb x) acc then acc else acc ++ [x]) (repeat y (S k)) acc =
  acc ++ [y].
Proof.
  intros E. simpl. rewrite E. apply unique_step_present.
  rewrite existsb_app. simpl. rewrite Z.eqb_refl, orb_true_r. reflexivity.
Qed.

(** With at least one record kept, the year slider offers exactly 2012, 2015,
    2019 and 2022 and starts at the full range 2012-2022; with none, [min] of
    the empty year list raises (the app stops at line 67). *)
Theorem year_slider_bounds grid obs der (H : load_data grid = Some (obs, der)) :
  match obs with
  | [] => years_of obs = [] /\ year_slider (years_of obs) = None
  | _ :: _ => years_of obs = [2012; 2015; 2019; 2022] /\
              year_slider (years_of obs) = Some (2012, 2022)
  end.
Proof.
  apply load_data_inv in H as [recs [_ [-> _]]].
  destruct recs as [|r rs] eqn:Er; [split; reflexivity|].
  rewrite <- Er.
  assert (Hy : years_of (melt recs) = [2012; 2015; 2019; 2022]).
  { unfold years_of, unique_by. rewrite melt_years. subst recs.
    cbn [flat_map year_cols fst length app].
    rewrite !fold_left_app.
    rewrite (unique_step_block 2012) by reflexivity.
    rewrite (unique_step_block 2015) by reflexivity.
    rewrite (unique_step_block 2019) by reflexivity.
    rewrite (unique_step_block 2022) by reflexivity.
    reflexivity. }
  rewrite Hy. subst recs. split; reflexivity.
Qed.

Lemma year_slider_bounds_witness :
  load_data sheet_spec_example =
    Some (melt [project_row (nth 1 sheet_spec_example [])],
          derive (melt [project_row (nth 1 sheet_spec_example [])])) /\
  years_of (melt [project_row (nth 1 sheet_spec_example [])]) = [2012; 2015; 2019; 2022] /\
  year_slider (years_of (melt [project_row (nth 1 sheet_spec_example [])])) = Some (2012, 2022).
Proof.
  assert (H : load_data sheet_spec_example =
    Some (melt [project_row (nth 1 sheet_spec_example [])],
          derive (melt [project_row (nth 1 sheet_spec_example [])]))) by (vm_compute; reflexivity).
  split; [exact H|]. exact (year_slider_bounds _ _ _ H).
Defined.

(** ** The metric selector *)

Section Unique.
Context {A : Type} (eqb : A -> A -> bool).
Hypothesis Heqb : forall a b, eqb a b = true <-> a = b.

Lemma unique_fold_in l : forall acc x,
  In x (fold_left (fun acc x => if existsb (eqb x) acc then acc else acc ++ [x]) l acc) <->
  In x acc \/ In x l.
Proof.
  induction l as [|y l IH]; intros acc x; simpl; [tauto|].
  rewrite IH. destruct (existsb (eqb y) acc) eqn:E.
  - apply existsb_exists in E as [z [Hz Ez]]. apply Heqb in Ez. subst z.
    split; [tauto|]. intros [H|[<-|H]]; auto.
  - rewrite in_app_iff. simpl. split; intros H; intuition.
Qed.

Lemma unique_fold_nodup l : forall acc, NoDup acc ->
  NoDup (fold_left (fun acc x => if existsb (eqb x) acc then acc else acc ++ [x]) l acc).
Proof.
  induction l as [|y l IH]; intros acc Hnd; simpl; [exact Hnd|].
  apply IH. destruct (existsb (eqb y) acc) eqn:E; [exact Hnd|].
  apply NoDup_app; [exact Hnd|repeat constructor; simpl; tauto|].
  intros x Hx [Hyx|[]]. subst x. assert (existsb (eqb y) acc = true) by
    (apply existsb_exists; exists y; split; [exact Hx|apply Heqb; reflexivity]).
  congruence.
Qed.

Lemma unique_by_in l x : In x (unique_by eqb l) <-> In x l.
Proof. unfold unique_by. rewrite unique_fold_in. simpl. tauto. Qed.

Lemma unique_by_nodup l : NoDup (unique_by eqb l).
Proof. apply unique_fold_nodup. constructor. Qed.
End Unique.

Lemma opt_ustr_eqb_eq a b : opt_ustr_eqb a b = true <-> a = b.
Proof.
  destruct a as [a|], b as [b|]; simpl; try (split; congruence).
  rewrite ustr_eqb_eq. split; congruence.
Qed.

Lemma in_somes a l : In a (somes l) <-> In (Some a) l.
Proof.
  unfold somes. rewrite in_flat_map. split.
  - intros [[x|] [Hx Ha]]; [destruct Ha as [<-|[]]; exact Hx|destruct Ha].
  - intros H. exists (Some a). simpl. auto.
Qed.

Lemma somes_nodup l : NoDup l -> NoDup (somes l).
Proof.
  induction l as [|[a|] t IH]; intros Hnd; simpl; [constructor| |].
  - inversion Hnd as [|? ? Ha Ht]; subst. constructor; [|exact (IH Ht)].
    intros H. apply in_somes in H. contradiction.
  - inversion Hnd; subst. exact (IH H2).
Qed.

Lemma str_ltb_irrefl a : str_ltb a a = false.
Proof.
  induction a as [|x a IH]; simpl; [reflexivity|].
  rewrite Z.ltb_irrefl, Z.eqb_refl, IH. reflexivity.
Qed.

Lemma str_ltb_trans a b c : str_ltb a b = true -> str_ltb b c = true -> str_ltb a c = true.
Proof.
  revert b c. induction a as [|x a IH]; intros [|y b] [|z c]; simpl; try discriminate; auto.
  rewrite !orb_true_iff, !andb_true_iff, !Z.ltb_lt, !Z.eqb_eq.
  intros [H1|[-> H1]] [H2|[-> H2]]; [left; lia|left; lia|left; lia|].
  right. split; [reflexivity|]. exact (IH _ _ H1 H2).
Qed.

Lemma str_ltb_total a b : a <> b -> str_ltb a b = false -> str_ltb b a = true.
Proof.
  revert b. induction a as [|x a IH]; intros [|y b] Hne; simpl; try congruence; auto.
  rewrite orb_false_iff, andb_false_iff, Z.ltb_ge, Z.eqb_neq.
  intros [H1 H2]. apply orb_true_iff.
  destruct (Z.eq_dec x y) as [<-|Hxy].
  - right. rewrite Z.eqb_refl. apply IH; [congruence|].
    destruct H2 as [H2|H2]; [lia|exact H2].
  - left. apply Z.ltb_lt. lia.
Qed.

Definition str_lt (a b : ustr) : Prop := str_ltb a b = true.

Lemma insert_str_perm x l : Permutation (insert_str x l) (x :: l).
Proof.
  induction l as [|y t IH]; simpl; [reflexivity|].
  destruct (str_ltb y x); [|reflexivity].
  transitivity (y :: x :: t); [constructor; exact IH|constructor].
Qed.

Lemma sort_str_perm l : Permutation (sort_str l) l.
Proof.
  induction l as [|x t IH]; simpl; [reflexivity|].
  rewrite (insert_str_perm x (sort_str t)). constructor. exact IH.
Qed.

Lemma insert_str_sorted x l :
  StronglySorted str_lt l -> ~ In x l -> StronglySorted str_lt (insert_str x l).
Proof.
  induction l as [|y t IH]; intros Hs Hx; simpl.
  - repeat constructor.
  - inversion Hs as [|? ? Ht Hy]; subst.
    destruct (str_ltb y x) eqn:E.
    + constructor; [apply IH; [exact Ht|intros H; apply Hx; right; exact H]|].
      apply Forall_forall. intros z Hz.
      apply (Permutation_in _ (insert_str_perm x t)) in Hz as [<-|Hz]; [exact E|].
      exact (proj1 (Forall_forall _ _) Hy z Hz).
    + assert (Hxy : str_lt x y).
      { apply str_ltb_total; [|exact E]. intros ->. apply Hx. left. reflexivity. }
      constructor; [exact Hs|]. constructor; [exact Hxy|].
      apply Forall_forall. intros z Hz.
      exact (str_ltb_trans _ _ _ Hxy (proj1 (Forall_forall _ _) Hy z Hz)).
Qed.

Lemma sort_str_sorted l : NoDup l -> StronglySorted str_lt (sort_str l).
Proof.
  induction l as [|x t IH]; intros Hnd; simpl; [constructor|].
  inversion Hnd as [|? ? Hx Ht]; subst.
  apply insert_str_sorted; [exact (IH Ht)|].
  intros H. apply (Permutation_in _ (sort_str_perm t)) in H. contradiction.
Qed.

Lemma is_none_existsb (l : list (option ustr)) :
  existsb (fun v => match v with None => true | Some _ => false end) l = true <-> In None l.
Proof.
  rewrite existsb_exists. split.
  - intros [[x|] [Hx E]]; [discriminate|exact Hx].
  - intros H. exists None. auto.
Qed.

Lemma metric_values_in obs v :
  In v (unique_by opt_ustr_eqb (map o_metric_name obs)) <->
  exists o, In o obs /\ o_metric_name o = v.
Proof.
  rewrite (unique_by_in _ opt_ustr_eqb_eq), in_map_iff. firstorder.
Qed.

Lemma metrics_of_none_iff obs :
  metrics_of obs = None <->
  In None (unique_by opt_ustr_eqb (map o_metric_name obs)) /\
  exists n, In (Some n) (unique_by opt_ustr_eqb (map o_metric_name obs)).
Proof.
  unfold metrics_of.
  pose proof (unique_by_nodup _ opt_ustr_eqb_eq (map o_metric_name obs)) as Hnd.
  destruct (unique_by opt_ustr_eqb (map o_metric_name obs)) as [|[a|] [|v1 t]].
  - simpl. split; [discriminate|tauto].
  - simpl. split; [discriminate|]. intros [[H|[]] _]. discriminate.
  - cbv beta iota. destruct (existsb _ (Some a :: v1 :: t)) eqn:E.
    + apply is_none_existsb in E. split; [intros _|reflexivity].
      split; [exact E|]. exists a. left. reflexivity.
    + split; [discriminate|]. intros [Hn _]. apply is_none_existsb in Hn. congruence.
  - simpl. split; [discriminate|]. intros [_ [n [H|[]]]]. discriminate.
  - cbv beta iota. simpl. split; [intros _|reflexivity]. split; [left; reflexivity|].
    inversion Hnd as [|? ? H1 _]; subst. destruct v1 as [n|].
    + exists n. right. left. reflexivity.
    + exfalso. apply H1. left. reflexivity.
Qed.

(** The metric list of line 72 fails ([sorted] raises [TypeError] and the app
    stops) exactly when the long table has a row with a null metric (a code
    without a letter prefix) and a row with a metric. *)
Theorem metric_list_type_error (obs : list obs) :
  metrics_of obs = None <->
  (exists o1, In o1 obs /\ o_metric_name o1 = None) /\
  (exists o2, In o2 obs /\ o_metric_name o2 <> None).
Proof.
  rewrite metrics_of_none_iff. setoid_rewrite metric_values_in. split.
  - intros [H1 [n [o2 [Ho2 E]]]]. split; [exact H1|]. exists o2. rewrite E. split; congruence.
  - intros [H1 [o2 [Ho2 E]]]. split; [exact H1|].
    destruct (o_metric_name o2) as [n|] eqn:En; [|congruence].
    exists n, o2. auto.
Qed.

(** On a sheet with a code "12345" beside a code "FISALES24000" the metric
    list raises. *)
Example mixed_codes_metric_list :
  match load_data sheet_mixed_codes with
  | Some (obs, _) => metrics_of obs = None
  | None => False
  end.
Proof. vm_compute. reflexivity. Qed.

(** When every row has a metric, the metric list of line 72 is the metric
    names of the long table, each once, in increasing string order; the
    selectbox starts on 'Sales Revenue' when some row has it, and otherwise
    on the first (smallest) name. *)
Theorem metric_list_sorted (obs : list obs)
  (Hnn : forall o, In o obs -> o_metric_name o <> None) :
  exists ns, metrics_of obs = Some (map Some ns) /\
    StronglySorted str_lt ns /\
    (forall n, In n ns <-> exists o, In o obs /\ o_metric_name o = Some n) /\
    ((exists o, In o obs /\ o_metric_name o = Some (u "Sales Revenue")) ->
       default_metric (map Some ns) = Some (Some (u "Sales Revenue"))) /\
    (~ (exists o, In o obs /\ o_metric_name o = Some (u "Sales Revenue")) ->
       default_metric (map Some ns) = hd_error (map Some ns)).
Proof.
  set (vals := unique_by opt_ustr_eqb (map o_metric_name obs)).
  assert (Hv : ~ In None vals).
  { unfold vals. rewrite metric_values_in. intros [o [Ho E]]. exact (Hnn o Ho E). }
  assert (Hm : forall n, In n (sort_str (somes vals)) <->
                         exists o, In o obs /\ o_metric_name o = Some n).
  { intros n. split.
    - intros H. apply (Permutation_in _ (sort_str_perm _)), in_somes in H.
      apply metric_values_in in H. exact H.
    - intros H. apply (Permutation_in _ (Permutation_sym (sort_str_perm _))), in_somes.
      apply metric_values_in. exact H. }
  exists (sort_str (somes vals)). split; [|split; [|split; [exact Hm|]]].
  - unfold metrics_of. fold vals.
    replace (existsb (fun v => match v with None => true | Some _ => false end) vals)
      with false by (symmetry; apply not_true_iff_false; rewrite is_none_existsb; exact Hv).
    destruct vals as [|[a|] [|v1 t]]; try reflexivity.
    exfalso. apply Hv. left. reflexivity.
  - apply sort_str_sorted, somes_nodup, unique_by_nodup. exact opt_ustr_eqb_eq.
  - split.
    + intros Hs. unfold default_metric.
      replace (existsb (opt_ustr_eqb (Some (u "Sales Revenue"))) (map Some (sort_str (somes vals))))
        with true; [reflexivity|].
      symmetry. apply existsb_exists. exists (Some (u "Sales Revenue")).
      split; [apply in_map, Hm, Hs|apply opt_ustr_eqb_eq; reflexivity].
    + intros Hs. unfold default_metric.
      replace (existsb (opt_ustr_eqb (Some (u "Sales Revenue"))) (map Some (sort_str (somes vals))))
        with false; [reflexivity|].
      symmetry. apply not_true_iff_false. intros E.
      apply existsb_exists in E as [v [Hin E]]. apply opt_ustr_eqb_eq in E. subst v.
      apply in_map_iff in Hin as [n [En Hn]]. injection En as ->.
      apply Hs, Hm, Hn.
Qed.

Lemma metric_list_sorted_witness :
  (forall o, In o (melt (map project_row (tl sheet_costs))) -> o_metric_name o <> None) /\
  exists ns, metrics_of (melt (map project_row (tl sheet_costs))) = Some (map Some ns) /\
    StronglySorted str_lt ns /\
    (forall n, In n ns <-> exists o, In o (melt (map project_row (tl sheet_costs))) /\
                                     o_metric_name o = Some n) /\
    ((exists o, In o (melt (map project_row (tl sheet_costs))) /\
                o_metric_name o = Some (u "Sales Revenue")) ->
       default_metric (map Some ns) = Some (Some (u "Sales Revenue"))) /\
    (~ (exists o, In o (melt (map project_row (tl sheet_costs))) /\
                  o_metric_name o = Some (u "Sales Revenue")) ->
       default_metric (map Some ns) = hd_error (map Some ns)).
Proof.
  assert (Hnn : forall o, In o (melt (map project_row (tl sheet_costs))) -> o_metric_name o <> None).
  { intros o Ho. vm_compute in Ho.
    repeat (destruct Ho as [<-|Ho]; [vm_compute; discriminate|]). destruct Ho. }
  split; [exact Hnn|]. exact (metric_list_sorted _ Hnn).
Defined.

(** ** The cleaned mineral names *)

(** For a label of ASCII characters the cleaned mineral name has no leading
    or trailing white space, contains no "Mining of ", has no parenthesised
    part left on any line, and is title-cased. *)
Theorem clean_mineral_shape s (Hs : is_ascii s = true) :
  strip (clean_mineral s) = clean_mineral s /\
  no_occurrence (u "Mining of ") (clean_mineral s) = true /\
  paren_free_aux false (clean_mineral s) = true /\
  titled false (clean_mineral s) = true.
Proof.
  set (b := sub_paren (remove_all (u "Mining of ") s)).
  assert (Hb : is_ascii b = true).
  { apply (ascii_incl _ s); [|exact Hs]. intros y Hy.
    apply sub_paren_fuel_incl in Hy. apply remove_all_fuel_incl in Hy. exact Hy. }
  set (c := strip b).
  assert (Hc : is_ascii c = true) by (apply (ascii_incl _ b); [apply strip_incl|exact Hb]).
  assert (Hd : clean_mineral s = title_aux false c) by reflexivity.
  rewrite Hd.
  assert (Hdt : titled false (title_aux false c) = true) by (apply title_aux_titled; exact Hc).
  assert (Hls : is_ascii (lstrip c) = true).
  { apply (ascii_incl _ c); [|exact Hc].
    destruct (lstrip_suffix c) as [pre Hpre]. intros y Hy.
    rewrite Hpre. apply in_or_app. right. exact Hy. }
  split; [|split; [|split; [|exact Hdt]]].
  - unfold strip. rewrite title_aux_lstrip by exact Hc.
    rewrite title_aux_rstrip by exact Hls. fold (strip c). unfold c.
    rewrite strip_idem. reflexivity.
  - exact (titled_no_mining_of false _ Hdt).
  - rewrite title_aux_paren_free by exact Hc.
    unfold c, strip. destruct (rstrip_prefix (lstrip b)) as [suf Hsuf].
    apply (paren_free_app_l _ _ suf). rewrite <- Hsuf.
    destruct (lstrip_suffix b) as [pre Hpre].
    apply (paren_free_app_r false pre). rewrite <- Hpre.
    apply sub_paren_paren_free.
Qed.

Lemma clean_mineral_shape_witness :
  is_ascii (u " Mining of Platinum group metal ore (PGM) ") = true /\
  clean_mineral (u " Mining of Platinum group metal ore (PGM) ") = u "Platinum Group Metal Ore" /\
  strip (u "Platinum Group Metal Ore") = u "Platinum Group Metal Ore" /\
  no_occurrence (u "Mining of ") (u "Platinum Group Metal Ore") = true /\
  paren_free_aux false (u "Platinum Group Metal Ore") = true /\
  titled false (u "Platinum Group Metal Ore") = true.
Proof.
  assert (Hs : is_ascii (u " Mining of Platinum group metal ore (PGM) ") = true)
    by (vm_compute; reflexivity).
  assert (Hc : clean_mineral (u " Mining of Platinum group metal ore (PGM) ") =
               u "Platinum Group Metal Ore") by (vm_compute; reflexivity).
  split; [exact Hs|]. split; [exact Hc|]. rewrite <- Hc.
  exact (clean_mineral_shape _ Hs).
Defined.

(** ** The mineral buttons and the filtered table *)

Lemma in_melt_year o recs : In o (melt recs) -> In (o_year o) [2012; 2015; 2019; 2022].
Proof.
  intros Ho. apply in_melt in Ho as [yc [r [Hyc [_ ->]]]]. simpl.
  destruct Hyc as [<-|[<-|[<-|[<-|[]]]]]; simpl; auto.
Qed.

(** The mineral buttons are the minerals of the long table, each once, in
    increasing string order. *)
Theorem mineral_buttons (obs : list obs) :
  StronglySorted str_lt (all_minerals_of obs) /\
  forall m, In m (all_minerals_of obs) <-> exists o, In o obs /\ o_mineral o = m.
Proof.
  assert (Heq : forall a b, ustr_eqb a b = true <-> a = b) by exact ustr_eqb_eq.
  split.
  - apply sort_str_sorted, unique_by_nodup. exact Heq.
  - intros m. unfold all_minerals_of. split.
    + intros H. apply (Permutation_in _ (sort_str_perm _)) in H.
      apply (unique_by_in _ Heq (map o_mineral obs)) in H.
      apply in_map_iff in H as [o [<- Ho]]. eauto.
    + intros [o [Ho <-]]. apply (Permutation_in _ (Permutation_sym (sort_str_perm _))).
      apply (unique_by_in _ Heq (map o_mineral obs)). apply in_map. exact Ho.
Qed.

(** At the slider's initial range the year condition of [filtered_df] drops
    no row: the table is the rows of the selected minerals and metric. *)
Theorem filtered_df_initial_years grid obs der (H : load_data grid = Some (obs, der))
  y0 y1 (Hy : year_slider (years_of obs) = Some (y0, y1)) selected metric :
  filtered_df y0 y1 selected metric obs =
  filter (fun o => existsb (ustr_eqb (o_mineral o)) selected &&
                   match o_metric_name o, metric with
                   | Some n, Some m => ustr_eqb n m
                   | _, _ => false
                   end) obs.
Proof.
  pose proof (year_slider_bounds _ _ _ H) as Hb.
  apply load_data_inv in H as [recs [_ [-> _]]].
  destruct (melt recs) as [|o0 rest] eqn:Em.
  - reflexivity.
  - destruct Hb as [_ Hb]. rewrite Hb in Hy. injection Hy as <- <-.
    unfold filtered_df. apply filter_ext_in. intros o Ho.
    rewrite <- Em in Ho. apply in_melt_year in Ho.
    assert (E : (2012 <=? o_year o) && (o_year o <=? 2022) = true).
    { apply andb_true_iff. rewrite !Z.leb_le.
      destruct Ho as [<-|[<-|[<-|[<-|[]]]]]; lia. }
    rewrite <- !andb_assoc, andb_assoc, E. reflexivity.
Qed.

Lemma filtered_df_initial_years_witness :
  load_data sheet_costs =
    Some (melt (map project_row (tl sheet_costs)),
          derive (melt (map project_row (tl sheet_costs)))) /\
  year_slider (years_of (melt (map project_row (tl sheet_costs)))) = Some (2012, 2022) /\
  length (filtered_df 2012 2022 initial_selection (Some (u "Sales Revenue"))
            (melt (map project_row (tl sheet_costs)))) = 4%nat /\
  filtered_df 2012 2022 initial_selection (Some (u "Sales Revenue"))
    (melt (map project_row (tl sheet_costs))) =
  filter (fun o => existsb (ustr_eqb (o_mineral o)) initial_selection &&
                   match o_metric_name o, Some (u "Sales Revenue") with
                   | Some n, Some m => ustr_eqb n m
                   | _, _ => false
                   end) (melt (map project_row (tl sheet_costs))).
Proof.
  assert (H : load_data sheet_costs =
    Some (melt (map project_row (tl sheet_costs)),
          derive (melt (map project_row (tl sheet_costs))))) by (vm_compute; reflexivity).
  assert (Hy : year_slider (years_of (melt (map project_row (tl sheet_costs)))) = Some (2012, 2022))
    by (vm_compute; reflexivity).
  split; [exact H|]. split; [exact Hy|]. split; [vm_compute; reflexivity|].
  exact (filtered_df_initial_years _ _ _ H _ _ Hy _ _).
Defined.
